(** * android_camera.c: the JNI bridge between the host object and the
      GStreamer camera pipeline

    A shallow embedding of [app/src/main/jni/android_camera.c].

    The C file is glue code: every function reads the [GstAhc] struct,
    updates a few of its fields and calls into GLib, GStreamer, the Android
    NDK, pthreads or the JVM.  The embedding keeps exactly that: a function
    of the C file becomes a function on the struct (or on the whole
    [Machine]) that returns the new value together with the list of
    external calls it made, in program order and with the arguments the C
    code passes.  Values that come back from the outside (the window
    returned by [ANativeWindow_fromSurface], whether a Java callback
    raised, whether [pthread_create] succeeded, ...) are arguments of the
    embedded function and are recorded in the call.

    Not traced: logging ([GST_DEBUG], [GST_ERROR], [GST_WARNING]), the
    parsing of bus messages, the bus watch of [app_function] (lines
    226-237), the allocation and release of temporary strings,
    errors and caps, and [get_jni_env] (the JNI environment of the calling
    thread is taken to be valid).  There is one host object, so the
    [thiz] argument of the JNI calls is left out. *)

From Stdlib Require Import List Bool ZArith String Lia PeanoNat.
Import ListNotations.

Set Implicit Arguments.

(** ** Handles and enumerations *)

(** Pointers are opaque identities; a C pointer that may be [NULL] is an
    [option]. *)
Definition jobject := positive.
Definition GstElement := positive.
Definition GMainLoop := positive.
Definition ANativeWindow := positive.

(** [GstState], in the order of the C enumeration (0 .. 4). *)
Inductive GstState : Type :=
| GST_STATE_VOID_PENDING
| GST_STATE_NULL
| GST_STATE_READY
| GST_STATE_PAUSED
| GST_STATE_PLAYING.

(** The caps built by [gst_caps_new_simple ("video/x-raw", "width", ...,
    "height", ...)]. *)
Record GstCaps : Type := mkCaps {
  media_type : string;
  caps_width : Z;
  caps_height : Z
}.

(** The value of a [g_object_set] property. *)
Inductive GValue : Type :=
| G_TYPE_INT (v : Z)
| GST_TYPE_CAPS (c : GstCaps).

(** The three Java methods looked up by [gst_class_init], with the
    argument the C code passes to each. *)
Inductive jmethod : Type :=
| on_error_method_id (jmessage : string)
| on_state_changed_method_id (new_state : GstState)
| on_gstreamer_initialized_method_id.

(** ** External calls *)

Inductive Call : Type :=
(* GStreamer *)
| gst_element_factory_make (factoryname : string) (ret : option GstElement)
| gst_pipeline_new (name : string) (ret : option GstElement)
| gst_bin_add_many (bin : option GstElement) (elements : list (option GstElement))
| gst_element_link_many (elements : list (option GstElement))
| gst_element_set_state (element : option GstElement) (target : GstState)
| gst_video_overlay_set_window_handle
    (overlay : option GstElement) (handle : option ANativeWindow)
| gst_photography_set_autofocus (photo : option GstElement) (on : bool)
| gst_object_unref (object : option GstElement)
(* GLib *)
| g_object_set (object : option GstElement) (property : string) (value : GValue)
| g_main_context_new        (* the context is a local of [app_function] *)
| g_main_context_unref
| g_main_loop_new (ret : GMainLoop)
| g_main_loop_run (loop : option GMainLoop)
| g_main_loop_quit (loop : option GMainLoop)
| g_main_loop_unref (loop : option GMainLoop)
| g_malloc0
| g_free
(* Android NDK *)
| ANativeWindow_fromSurface (surface : jobject) (ret : option ANativeWindow)
| ANativeWindow_release (window : option ANativeWindow)
(* JNI *)
| SetLongField (null : bool)
| NewGlobalRef (ret : option jobject)
| DeleteGlobalRef (ref : option jobject)
| NewStringUTF (bytes : string)
| DeleteLocalRef
| CallVoidMethod (obj : option jobject) (method : jmethod)
| ExceptionCheck (ret : bool)
| ExceptionDescribe
| ExceptionClear
(* pthreads; [pthread_join] is recorded when it returns *)
| pthread_create (succeeded : bool)
| pthread_join (thread_valid : bool).

(** A computation that makes external calls: its result and the calls, in
    program order. *)
Definition Traced (A : Type) : Type := (A * list Call)%type.

Definition ret {A : Type} (a : A) : Traced A := (a, []).

Definition bind {A B : Type} (x : Traced A) (f : A -> Traced B) : Traced B :=
  (fst (f (fst x)), snd x ++ snd (f (fst x))).

Definition call (c : Call) : Traced unit := (tt, [c]).

Declare Scope traced_scope.
Delimit Scope traced_scope with traced.
Notation "x <- c1 ;; c2" := (bind c1 (fun x => c2))
  (at level 61, c1 at next level, right associativity) : traced_scope.
Notation "c1 ;; c2" := (bind c1 (fun _ => c2))
  (at level 61, right associativity) : traced_scope.
Local Open Scope traced_scope.

(** [if (cond) { call }] *)
Definition when (cond : bool) (c : Traced unit) : Traced unit :=
  if cond then c else ret tt.

Definition not_null {A : Type} (p : option A) : bool :=
  match p with Some _ => true | None => false end.

(** ** The session struct *)

(** [struct _GstAhc].  [state] is declared [gboolean] in C and holds the
    [GstState] written by [state_changed_cb]. *)
Record GstAhc : Type := mkGstAhc {
  app : option jobject;
  pipeline : option GstElement;
  main_loop : option GMainLoop;
  native_window : option ANativeWindow;
  state : GstState;
  ahcsrc : option GstElement;
  filter : option GstElement;
  vsink : option GstElement;
  initialized : bool
}.

(** The struct as [g_malloc0] returns it: every field zero. *)
Definition zeroed : GstAhc :=
  {| app := None; pipeline := None; main_loop := None;
     native_window := None; state := GST_STATE_VOID_PENDING;
     ahcsrc := None; filter := None; vsink := None;
     initialized := false |}.

Definition set_app (v : option jobject) (d : GstAhc) : GstAhc :=
  {| app := v; pipeline := pipeline d; main_loop := main_loop d;
     native_window := native_window d; state := state d;
     ahcsrc := ahcsrc d; filter := filter d; vsink := vsink d;
     initialized := initialized d |}.

Definition set_main_loop (v : option GMainLoop) (d : GstAhc) : GstAhc :=
  {| app := app d; pipeline := pipeline d; main_loop := v;
     native_window := native_window d; state := state d;
     ahcsrc := ahcsrc d; filter := filter d; vsink := vsink d;
     initialized := initialized d |}.

Definition set_native_window (v : option ANativeWindow) (d : GstAhc) : GstAhc :=
  {| app := app d; pipeline := pipeline d; main_loop := main_loop d;
     native_window := v; state := state d;
     ahcsrc := ahcsrc d; filter := filter d; vsink := vsink d;
     initialized := initialized d |}.

Definition set_state (v : GstState) (d : GstAhc) : GstAhc :=
  {| app := app d; pipeline := pipeline d; main_loop := main_loop d;
     native_window := native_window d; state := v;
     ahcsrc := ahcsrc d; filter := filter d; vsink := vsink d;
     initialized := initialized d |}.

Definition set_initialized (v : bool) (d : GstAhc) : GstAhc :=
  {| app := app d; pipeline := pipeline d; main_loop := main_loop d;
     native_window := native_window d; state := state d;
     ahcsrc := ahcsrc d; filter := filter d; vsink := vsink d;
     initialized := v |}.

Definition set_elements
    (src flt sink pipe : option GstElement) (d : GstAhc) : GstAhc :=
  {| app := app d; pipeline := pipe; main_loop := main_loop d;
     native_window := native_window d; state := state d;
     ahcsrc := src; filter := flt; vsink := sink;
     initialized := initialized d |}.

(** ** Private methods (worker-thread callbacks) *)

(** The tail shared by the three notifications: [ExceptionCheck], and when
    it reports a pending exception, [ExceptionClear] (preceded by
    [ExceptionDescribe] in [state_changed_cb] only). *)
Definition check_exception (describe raised : bool) : Traced unit :=
  call (ExceptionCheck raised) ;;
  when raised
    (when describe (call ExceptionDescribe) ;;
     call ExceptionClear).

(** [on_error], lines 112-140. *)
Definition on_error
    (src_name err_message : string) (raised : bool) (ahc : GstAhc)
  : Traced GstAhc :=
  let message_string :=
    ("Error received from element " ++ src_name ++ ": " ++ err_message)%string in
  call (NewStringUTF message_string) ;;
  call (CallVoidMethod (app ahc) (on_error_method_id message_string)) ;;
  check_exception false raised ;;
  call DeleteLocalRef ;;
  call (gst_element_set_state (pipeline ahc) GST_STATE_NULL) ;;
  ret ahc.

(** [eos_cb], lines 143-147. *)
Definition eos_cb (data : GstAhc) : Traced GstAhc :=
  call (gst_element_set_state (pipeline data) GST_STATE_PAUSED) ;;
  ret data.

Definition ptr_eqb (a b : option positive) : bool :=
  match a, b with
  | Some x, Some y => Pos.eqb x y
  | None, None => true
  | _, _ => false
  end.

(** [state_changed_cb], lines 149-169.  [msg_src] is [GST_MESSAGE_SRC
    (msg)]. *)
Definition state_changed_cb
    (msg_src : option GstElement) (new_state : GstState) (raised : bool)
    (ahc : GstAhc) : Traced GstAhc :=
  if ptr_eqb msg_src (pipeline ahc) then
    let ahc := set_state new_state ahc in
    call (CallVoidMethod (app ahc) (on_state_changed_method_id new_state)) ;;
    check_exception true raised ;;
    ret ahc
  else ret ahc.

(** [check_initialization_complete], lines 171-188. *)
Definition check_initialization_complete (raised : bool) (data : GstAhc)
  : Traced GstAhc :=
  if negb (initialized data) && not_null (native_window data)
     && not_null (main_loop data) then
    let data := set_initialized true data in
    call (CallVoidMethod (app data) on_gstreamer_initialized_method_id) ;;
    check_exception false raised ;;
    ret data
  else ret data.

(** ** The worker thread *)

(** What the element factory and GLib hand back to [app_function]. *)
Record Made : Type := mkMade {
  made_ahcsrc : option GstElement;
  made_vsink : option GstElement;
  made_filter : option GstElement;
  made_pipeline : option GstElement;
  made_loop : GMainLoop
}.

(** [app_function], lines 200-243: from the start of the thread up to the
    point where it sits in [g_main_loop_run]. *)
Definition app_function_enter (e : Made) (raised : bool) (ahc : GstAhc)
  : Traced GstAhc :=
  call g_main_context_new ;;
  call (gst_element_factory_make "ahcsrc" (made_ahcsrc e)) ;;
  call (gst_element_factory_make "glimagesink" (made_vsink e)) ;;
  call (gst_element_factory_make "capsfilter" (made_filter e)) ;;
  call (gst_pipeline_new "camera-pipeline" (made_pipeline e)) ;;
  let ahc :=
    set_elements (made_ahcsrc e) (made_filter e) (made_vsink e)
      (made_pipeline e) ahc in
  call (gst_bin_add_many (pipeline ahc) [ahcsrc ahc; filter ahc; vsink ahc]) ;;
  call (gst_element_link_many [ahcsrc ahc; filter ahc; vsink ahc]) ;;
  when (not_null (native_window ahc))
    (call (gst_video_overlay_set_window_handle (vsink ahc) (native_window ahc))) ;;
  call (g_main_loop_new (made_loop e)) ;;
  let ahc := set_main_loop (Some (made_loop e)) ahc in
  ahc <- check_initialization_complete raised ahc ;;
  call (g_main_loop_run (main_loop ahc)) ;;
  ret ahc.

(** [app_function], lines 244-256: after [g_main_loop_run] has returned. *)
Definition app_function_leave (ahc : GstAhc) : Traced GstAhc :=
  call (g_main_loop_unref (main_loop ahc)) ;;
  let ahc := set_main_loop None ahc in
  call g_main_context_unref ;;
  call (gst_element_set_state (pipeline ahc) GST_STATE_NULL) ;;
  call (gst_object_unref (vsink ahc)) ;;
  call (gst_object_unref (filter ahc)) ;;
  call (gst_object_unref (ahcsrc ahc)) ;;
  call (gst_object_unref (pipeline ahc)) ;;
  ret ahc.

(** Where the thread behind the static [gst_app_thread] is.  The two
    segments of [app_function] are taken as atomic. *)
Inductive Thread : Type :=
| T_none      (* never created *)
| T_spawned   (* created, [app_function] not yet at line 243 *)
| T_looping   (* inside [g_main_loop_run] *)
| T_exited    (* [app_function] has returned *)
| T_joined.   (* [pthread_join] has returned for it *)

(** ** The machine: host object, session struct and worker thread *)

(** [native_custom_data] is the [jlong] field of the host object: [None]
    when it holds 0, otherwise the struct it points to (the worker thread
    holds the same pointer as [userdata]).  [host_joining] says that the
    host thread is inside [pthread_join] and has not come back. *)
Record Machine : Type := mkMachine {
  native_custom_data : option GstAhc;
  gst_app_thread : Thread;
  host_joining : bool
}.

Definition with_data (d : GstAhc) (m : Machine) : Machine :=
  {| native_custom_data := Some d;
     gst_app_thread := gst_app_thread m;
     host_joining := host_joining m |}.

(** The host object before [nativeInit]. *)
Definition boot : Machine :=
  {| native_custom_data := None; gst_app_thread := T_none;
     host_joining := false |}.

(** ** Java bindings *)

(** [gst_native_init], lines 262-272.  The value of [pthread_create] is
    not looked at. *)
Definition gst_native_init
    (global_ref : option jobject) (thread_created : bool) (m : Machine)
  : Traced Machine :=
  call g_malloc0 ;;
  let data := zeroed in
  call (SetLongField false) ;;
  call (NewGlobalRef global_ref) ;;
  let data := set_app global_ref data in
  call (pthread_create thread_created) ;;
  ret {| native_custom_data := Some data;
         gst_app_thread :=
           if thread_created then T_spawned else gst_app_thread m;
         host_joining := host_joining m |}.

(** [gst_native_finalize], lines 274-291.

    [g_main_loop_quit] makes a running loop return, after which the worker
    runs the rest of [app_function] and exits; [pthread_join] comes back
    once the worker has exited.  When the loop pointer is still [NULL], or
    the thread is not in the loop, the quit request reaches no loop: a
    thread that has exited is joined at once, a thread that is still on
    its way into the loop never leaves it and the host stays in
    [pthread_join]. *)
Definition gst_native_finalize (m : Machine) : Traced Machine :=
  match native_custom_data m with
  | None => ret m
  | Some data =>
      call (g_main_loop_quit (main_loop data)) ;;
      let finish (data : GstAhc) (valid : bool) (th : Thread) :=
        call (pthread_join valid) ;;
        call (DeleteGlobalRef (app data)) ;;
        call g_free ;;
        call (SetLongField true) ;;
        ret {| native_custom_data := None; gst_app_thread := th;
               host_joining := false |} in
      match gst_app_thread m, main_loop data with
      | T_looping, Some _ =>
          data <- app_function_leave data ;;
          finish data true T_joined
      | T_exited, _ => finish data true T_joined
      | T_spawned, _ | T_looping, None =>
          ret {| native_custom_data := Some data;
                 gst_app_thread := gst_app_thread m;
                 host_joining := true |}
      | T_none, _ => finish data false T_none
      | T_joined, _ => finish data false T_joined
      end
  end.

(** [gst_native_play], lines 293-302. *)
Definition gst_native_play (m : Machine) : Traced Machine :=
  match native_custom_data m with
  | None => ret m
  | Some data =>
      call (gst_element_set_state (pipeline data) GST_STATE_PLAYING) ;;
      ret m
  end.

(** [gst_native_pause], lines 304-313. *)
Definition gst_native_pause (m : Machine) : Traced Machine :=
  match native_custom_data m with
  | None => ret m
  | Some data =>
      call (gst_element_set_state (pipeline data) GST_STATE_PAUSED) ;;
      ret m
  end.

(** [gst_native_surface_init], lines 343-370.  [window] is what
    [ANativeWindow_fromSurface] returns for [surface]. *)
Definition gst_native_surface_init
    (surface : jobject) (window : option ANativeWindow) (raised : bool)
    (m : Machine) : Traced Machine :=
  match native_custom_data m with
  | None => ret m
  | Some ahc =>
      when (not_null (native_window ahc))
        (call (ANativeWindow_release (native_window ahc))) ;;
      call (ANativeWindow_fromSurface surface window) ;;
      let ahc := set_native_window window ahc in
      when (not_null (vsink ahc))
        (call (gst_video_overlay_set_window_handle
                 (vsink ahc) (native_window ahc))) ;;
      ahc <- check_initialization_complete raised ahc ;;
      ret (with_data ahc m)
  end.

(** [gst_native_surface_finalize], lines 372-387. *)
Definition gst_native_surface_finalize (m : Machine) : Traced Machine :=
  match native_custom_data m with
  | None => ret m
  | Some data =>
      call (ANativeWindow_release (native_window data)) ;;
      let data := set_native_window None data in
      call (gst_video_overlay_set_window_handle (vsink data) None) ;;
      ret (with_data data m)
  end.

(** [gst_native_change_resolution], lines 389-412. *)
Definition gst_native_change_resolution (width height : Z) (m : Machine)
  : Traced Machine :=
  match native_custom_data m with
  | None => ret m
  | Some ahc =>
      call (gst_element_set_state (pipeline ahc) GST_STATE_READY) ;;
      let new_caps :=
        {| media_type := "video/x-raw";
           caps_width := width; caps_height := height |} in
      call (g_object_set (filter ahc) "caps" (GST_TYPE_CAPS new_caps)) ;;
      call (gst_element_set_state (pipeline ahc) GST_STATE_PAUSED) ;;
      ret m
  end.

(** [GST_PHOTOGRAPHY_PROP_WB_MODE] *)
Definition GST_PHOTOGRAPHY_PROP_WB_MODE : string := "white-balance-mode".

(** [gst_native_set_white_balance], lines 414-425. *)
Definition gst_native_set_white_balance (wb_mode : Z) (m : Machine)
  : Traced Machine :=
  match native_custom_data m with
  | None => ret m
  | Some ahc =>
      call (g_object_set (ahcsrc ahc) GST_PHOTOGRAPHY_PROP_WB_MODE
              (G_TYPE_INT wb_mode)) ;;
      ret m
  end.

(** [gst_native_set_auto_focus], lines 427-438. *)
Definition gst_native_set_auto_focus (enabled : bool) (m : Machine)
  : Traced Machine :=
  match native_custom_data m with
  | None => ret m
  | Some ahc =>
      call (gst_photography_set_autofocus (ahcsrc ahc) enabled) ;;
      ret m
  end.

(** [gst_native_set_rotate_method], lines 440-449. *)
Definition gst_native_set_rotate_method (method : Z) (m : Machine)
  : Traced Machine :=
  match native_custom_data m with
  | None => ret m
  | Some ahc =>
      call (g_object_set (vsink ahc) "rotate-method" (G_TYPE_INT method)) ;;
      ret m
  end.

(** ** Runs *)

(** What can happen to a session once [nativeInit] has returned: a call
    of the host (an entry of [native_methods]) or a step of the worker
    thread.  A call carries what the outside answers during it. *)
Inductive Command : Type :=
| nativeFinalize
| nativePlay
| nativePause
| nativeSurfaceInit
    (surface : jobject) (window : option ANativeWindow) (raised : bool)
| nativeSurfaceFinalize
| nativeChangeResolution (width height : Z)
| nativeSetRotateMethod (method : Z)
| nativeSetWhiteBalance (wb_mode : Z)
| nativeSetAutoFocus (enabled : bool)
| thread_enter (e : Made) (raised : bool)
| message_error (src_name err_message : string) (raised : bool)
| message_eos
| message_state_changed
    (msg_src : option GstElement) (new_state : GstState) (raised : bool).

(** A step of the worker on the struct it was handed at creation. *)
Definition on_worker
    (f : GstAhc -> Traced GstAhc) (after : Thread) (m : Machine)
  : Traced Machine :=
  match native_custom_data m with
  | None => ret m
  | Some ahc =>
      ahc <- f ahc ;;
      ret {| native_custom_data := Some ahc; gst_app_thread := after;
             host_joining := host_joining m |}
  end.

(** A call of the host; none can start while the host is in
    [pthread_join]. *)
Definition on_host (f : Machine -> Traced Machine) (m : Machine)
  : Traced Machine :=
  if host_joining m then ret m else f m.

(** One command, run to its end before the next one starts (schedules
    that place the parts of one function between the parts of another are
    the subject of [part] below).  A worker step that the thread is not
    ready for (the thread is not at the start of [app_function], or a bus
    message while the loop is not running) does not happen. *)
Definition step (c : Command) (m : Machine) : Traced Machine :=
  match c with
  | nativeFinalize => on_host gst_native_finalize m
  | nativePlay => on_host gst_native_play m
  | nativePause => on_host gst_native_pause m
  | nativeSurfaceInit surface window raised =>
      on_host (gst_native_surface_init surface window raised) m
  | nativeSurfaceFinalize => on_host gst_native_surface_finalize m
  | nativeChangeResolution width height =>
      on_host (gst_native_change_resolution width height) m
  | nativeSetRotateMethod method =>
      on_host (gst_native_set_rotate_method method) m
  | nativeSetWhiteBalance wb_mode =>
      on_host (gst_native_set_white_balance wb_mode) m
  | nativeSetAutoFocus enabled =>
      on_host (gst_native_set_auto_focus enabled) m
  | thread_enter e raised =>
      match gst_app_thread m with
      | T_spawned => on_worker (app_function_enter e raised) T_looping m
      | _ => ret m
      end
  | message_error src_name err_message raised =>
      match gst_app_thread m with
      | T_looping => on_worker (on_error src_name err_message raised) T_looping m
      | _ => ret m
      end
  | message_eos =>
      match gst_app_thread m with
      | T_looping => on_worker eos_cb T_looping m
      | _ => ret m
      end
  | message_state_changed msg_src new_state raised =>
      match gst_app_thread m with
      | T_looping =>
          on_worker (state_changed_cb msg_src new_state raised) T_looping m
      | _ => ret m
      end
  end.

Fixpoint run (cs : list Command) (m : Machine) : Traced Machine :=
  match cs with
  | [] => ret m
  | c :: cs' => m' <- step c m ;; run cs' m'
  end.

(** ** Reading a trace *)

(** How the libraries behind the calls treat a [NULL] argument.  The
    libraries are not part of the repository; this is their documented
    behaviour.

    The GLib and GStreamer entry points used here start with a
    [g_return_if_fail] / [g_return_val_if_fail] test of their receiver
    (and the [GST_VIDEO_OVERLAY] and [GST_PHOTOGRAPHY] casts let [NULL]
    through): with a [NULL] receiver they log a critical warning and
    return without touching anything.  Such a call is [rejected]. *)
Definition rejected (c : Call) : bool :=
  match c with
  | gst_element_set_state None _
  | gst_video_overlay_set_window_handle None _
  | gst_photography_set_autofocus None _
  | gst_object_unref None
  | gst_bin_add_many None _
  | g_object_set None _ _
  | g_main_loop_run None
  | g_main_loop_quit None
  | g_main_loop_unref None => true
  | _ => false
  end.

(** [ANativeWindow_release] dereferences its argument, and [pthread_join]
    on an id that names no joinable thread is undefined: these two calls
    can bring the process down. *)
Definition faulting (c : Call) : bool :=
  match c with
  | ANativeWindow_release None => true
  | pthread_join false => true
  | _ => false
  end.

(** The state-transition requests of a trace that reach an element. *)
Fixpoint state_requests (t : list Call) : list (GstElement * GstState) :=
  match t with
  | [] => []
  | gst_element_set_state (Some e) s :: t' => (e, s) :: state_requests t'
  | _ :: t' => state_requests t'
  end.

Definition is_set_state (c : Call) : bool :=
  match c with gst_element_set_state _ _ => true | _ => false end.

Definition is_on_error (c : Call) : bool :=
  match c with CallVoidMethod _ (on_error_method_id _) => true | _ => false end.

Definition is_on_initialized (c : Call) : bool :=
  match c with
  | CallVoidMethod _ on_gstreamer_initialized_method_id => true
  | _ => false
  end.

Definition is_release (c : Call) : bool :=
  match c with ANativeWindow_release _ => true | _ => false end.

Definition count (p : Call -> bool) (t : list Call) : nat :=
  List.length (List.filter p t).

(** Position of the first call of a trace that satisfies [p]. *)
Fixpoint first_index (p : Call -> bool) (t : list Call) : option nat :=
  match t with
  | [] => None
  | c :: t' =>
      if p c then Some 0
      else match first_index p t' with
           | Some n => Some (S n)
           | None => None
           end
  end.

(** Both kinds of call occur, and the first [p] comes before the first
    [q]. *)
Definition precedes (p q : Call -> bool) (t : list Call) : bool :=
  match first_index p t, first_index q t with
  | Some i, Some j => i <? j
  | _, _ => false
  end.

(** The window references alive after a call: [ANativeWindow_fromSurface]
    hands out one when it returns a window, [ANativeWindow_release] gives
    one back. *)
Fixpoint remove_one (w : ANativeWindow) (l : list ANativeWindow)
  : list ANativeWindow :=
  match l with
  | [] => []
  | x :: l' => if Pos.eqb w x then l' else x :: remove_one w l'
  end.

Definition live_step (c : Call) (live : list ANativeWindow)
  : list ANativeWindow :=
  match c with
  | ANativeWindow_fromSurface _ (Some w) => w :: live
  | ANativeWindow_release (Some w) => remove_one w live
  | _ => live
  end.


(** The window references alive at the end of the trace. *)
Fixpoint live_after (t : list Call) (live : list ANativeWindow)
  : list ANativeWindow :=
  match t with
  | [] => live
  | c :: t' => live_after t' (live_step c live)
  end.

(** The window the rendering stage is bound to after a trace, starting
    from [bound]. *)
Fixpoint bound_window (t : list Call) (bound : option ANativeWindow)
  : option ANativeWindow :=
  match t with
  | [] => bound
  | gst_video_overlay_set_window_handle (Some _) h :: t' => bound_window t' h
  | _ :: t' => bound_window t' bound
  end.


Definition is_null_request (c : Call) : bool :=
  match c with
  | gst_element_set_state _ GST_STATE_NULL => true
  | _ => false
  end.



(** The window references a session holds: the one in its
    [native_window] field. *)
Definition held (d : GstAhc) : list ANativeWindow :=
  match native_window d with Some w => [w] | None => [] end.


(** How many "initialization complete" notifications a machine can still
    send: one while the flag of its session is clear. *)
Definition pending_notifications (m : Machine) : nat :=
  match native_custom_data m with
  | Some d => if initialized d then 0 else 1
  | None => 0
  end.

Definition is_play_or_pause (c : Command) : bool :=
  match c with nativePlay | nativePause => true | _ => false end.

(** What the caller of [nativeInit] has in hand when the call returns.
    The native method is [void] and no function of the file throws, so
    the one thing it leaves behind for the caller is the
    [native_custom_data] field: a session, or nothing. *)
Inductive StartResult : Type :=
| SessionHandle (session : GstAhc)
| InitError.

Definition start_result (r : Traced Machine) : StartResult :=
  match native_custom_data (fst r) with
  | Some d => SessionHandle d
  | None => InitError
  end.

(** A session in the middle of its life, used in the examples: pipeline
    built, loop running, a window bound, playing. *)
Definition playing_session : GstAhc :=
  {| app := Some 9%positive; pipeline := Some 1%positive;
     main_loop := Some 2%positive; native_window := Some 7%positive;
     state := GST_STATE_PLAYING;
     ahcsrc := Some 3%positive; filter := Some 4%positive;
     vsink := Some 5%positive; initialized := true |}.

Definition playing_machine : Machine :=
  {| native_custom_data := Some playing_session;
     gst_app_thread := T_looping; host_joining := false |}.

(** The machine right after a successful [nativeInit]. *)
Definition started_machine : Machine :=
  fst (gst_native_init (Some 9%positive) true boot).

(** ** The JNI environment of a thread *)

Definition JNIEnv := positive.

(** The calls of [attach_current_thread], [detach_current_thread] and
    [get_jni_env].  [AttachCurrentThread] carries the value it returns
    and the environment it stores through its second argument. *)
Inductive VmCall : Type :=
| AttachCurrentThread (rc : Z) (env : option JNIEnv)
| DetachCurrentThread
| pthread_setspecific (value : option JNIEnv).

(** [attach_current_thread], lines 73-90. *)
Definition attach_current_thread (rc : Z) (env : option JNIEnv)
  : option JNIEnv * list VmCall :=
  (if (rc <? 0)%Z then None else env, [AttachCurrentThread rc env]).

(** [detach_current_thread], lines 92-97. *)
Definition detach_current_thread (env : JNIEnv) : list VmCall :=
  [DetachCurrentThread].

(** [get_jni_env], lines 99-110.  [current_jni_env] is the value the
    calling thread has under the key of that name; the result is the
    environment returned, the value under the key afterwards, and the
    calls made. *)
Definition get_jni_env
    (rc : Z) (env : option JNIEnv) (current_jni_env : option JNIEnv)
  : option JNIEnv * option JNIEnv * list VmCall :=
  match current_jni_env with
  | None =>
      let (env, t) := attach_current_thread rc env in
      (env, env, t ++ [pthread_setspecific env])
  | Some env => (Some env, Some env, [])
  end.

(** A thread that calls [get_jni_env] once per answer of the VM: the
    environments returned, the value under the key at the end, the
    calls. *)
Fixpoint get_jni_env_each
    (answers : list (Z * option JNIEnv)) (current_jni_env : option JNIEnv)
  : list (option JNIEnv) * option JNIEnv * list VmCall :=
  match answers with
  | [] => ([], current_jni_env, [])
  | (rc, env) :: rest =>
      let '(r, slot, t) := get_jni_env rc env current_jni_env in
      let '(rs, slot', t') := get_jni_env_each rest slot in
      (r :: rs, slot', t ++ t')
  end.

(** The end of a thread: [JNI_OnLoad] creates the key with
    [detach_current_thread] as its destructor (line 498), and pthreads
    runs the destructor of a key for a thread that exits with a
    non-[NULL] value under it. *)
Definition thread_exit (current_jni_env : option JNIEnv) : list VmCall :=
  match current_jni_env with
  | Some env => detach_current_thread env
  | None => []
  end.

(** An [AttachCurrentThread] that returned success and an environment. *)
Definition attached (c : VmCall) : bool :=
  match c with
  | AttachCurrentThread rc (Some _) => (0 <=? rc)%Z
  | _ => false
  end.

Definition is_attach (c : VmCall) : bool :=
  match c with AttachCurrentThread _ _ => true | _ => false end.

Definition is_detach (c : VmCall) : bool :=
  match c with DetachCurrentThread => true | _ => false end.

(** ** More ways to read a run *)

(** The state last reported through [onStateChanged], starting from
    [s]. *)
Fixpoint last_reported (t : list Call) (s : GstState) : GstState :=
  match t with
  | [] => s
  | CallVoidMethod _ (on_state_changed_method_id s') :: t' =>
      last_reported t' s'
  | _ :: t' => last_reported t' s
  end.

(** Whether a Java exception is pending at the end of a trace, given
    whether one was pending at its start; [None] when some call other
    than the three exception calls is made while one is pending. *)
Fixpoint pending_after (t : list Call) (pending : bool) : option bool :=
  match t with
  | [] => Some pending
  | ExceptionCheck raised :: t' => pending_after t' (pending || raised)
  | ExceptionDescribe :: t' => pending_after t' pending
  | ExceptionClear :: t' => pending_after t' false
  | _ :: t' => if pending then None else pending_after t' false
  end.

(** A call on a Java object is a call on [o]. *)
Definition targets (o : option jobject) (c : Call) : bool :=
  match c with
  | CallVoidMethod obj _ => ptr_eqb obj o
  | DeleteGlobalRef obj => ptr_eqb obj o
  | _ => true
  end.

Definition is_delete_global_ref (c : Call) : bool :=
  match c with DeleteGlobalRef _ => true | _ => false end.

Definition is_invalid_join (c : Call) : bool :=
  match c with pthread_join false => true | _ => false end.

Definition is_bind (c : Call) : bool :=
  match c with gst_video_overlay_set_window_handle _ _ => true | _ => false end.

(** Commands that put a window into the session. *)
Definition installs_window (c : Command) : bool :=
  match c with nativeSurfaceInit _ (Some _) _ => true | _ => false end.

(** The host calls other than [nativeFinalize]. *)
Definition is_host_request (c : Command) : bool :=
  match c with
  | nativePlay | nativePause | nativeSurfaceInit _ _ _
  | nativeSurfaceFinalize | nativeChangeResolution _ _
  | nativeSetRotateMethod _ | nativeSetWhiteBalance _
  | nativeSetAutoFocus _ => true
  | _ => false
  end.

(** The two commands behind which the NULL state is requested: the error
    handler and the shutdown. *)
Definition stops_pipeline (c : Command) : bool :=
  match c with
  | message_error _ _ _ | nativeFinalize => true
  | _ => false
  end.

(** The fields of the session that only the worker thread and
    [gst_native_init] write. *)
Definition worker_fields (d : GstAhc)
  : option jobject * option GstElement * option GMainLoop * GstState
    * option GstElement * option GstElement * option GstElement :=
  (app d, pipeline d, main_loop d, state d, ahcsrc d, filter d, vsink d).

(** A worker that is in its loop has stored the loop in the session. *)
Definition loop_ready (m : Machine) : bool :=
  match native_custom_data m, gst_app_thread m with
  | Some d, T_looping => not_null (main_loop d)
  | _, _ => true
  end.

(** A live session has a thread that was created and not yet joined. *)
Definition thread_alive (m : Machine) : bool :=
  match native_custom_data m, gst_app_thread m with
  | Some _, (T_none | T_joined) => false
  | _, _ => true
  end.

(** The session holds no window. *)
Definition windowless (m : Machine) : bool :=
  match native_custom_data m with
  | Some d => negb (not_null (native_window d))
  | None => true
  end.

(** The session, if there is one, notifies [o]. *)
Definition notifies (o : option jobject) (m : Machine) : bool :=
  match native_custom_data m with
  | Some d => ptr_eqb (app d) o
  | None => true
  end.

(** The machine right after [nativeInit] on a fresh host object. *)
Definition started (global_ref : option jobject) (thread_created : bool)
  : Machine :=
  fst (gst_native_init global_ref thread_created boot).

(** The session of [m], if there is one, has [s] recorded. *)
Definition records (m : Machine) (s : GstState) : Prop :=
  match native_custom_data m with
  | Some d => state d = s
  | None => True
  end.

(** What a call of a trace gives back: a reference to an object, to a
    main loop, to the main context, to a window, the global reference, or
    the session struct. *)
Inductive Released : Type :=
| rel_object (o : option GstElement)
| rel_main_loop (l : option GMainLoop)
| rel_main_context
| rel_window (w : option ANativeWindow)
| rel_global_ref (r : option jobject)
| rel_session.

(** Everything a trace gives back, in order. *)
Fixpoint released (t : list Call) : list Released :=
  match t with
  | [] => []
  | gst_object_unref o :: t' => rel_object o :: released t'
  | g_main_loop_unref l :: t' => rel_main_loop l :: released t'
  | g_main_context_unref :: t' => rel_main_context :: released t'
  | ANativeWindow_release w :: t' => rel_window w :: released t'
  | DeleteGlobalRef r :: t' => rel_global_ref r :: released t'
  | g_free :: t' => rel_session :: released t'
  | _ :: t' => released t'
  end.

Definition is_context_new (c : Call) : bool :=
  match c with g_main_context_new => true | _ => false end.

(** How far the handling of a host callback has come: no callback is
    being handled; the callback was called and [ExceptionCheck] is due;
    an exception was found and must be dealt with; it was described and
    must be cleared.  [describes] says that the callback is
    [onStateChanged], whose handler describes the exception before it
    clears it.  [Broken] is any other order of these calls. *)
Inductive Handling : Type :=
| Quiet
| Called (describes : bool)
| Raised (describes : bool)
| Described
| Broken.

Definition handle (h : Handling) (c : Call) : Handling :=
  match h, c with
  | Quiet, CallVoidMethod _ (on_state_changed_method_id _) => Called true
  | Quiet, CallVoidMethod _ _ => Called false
  | Quiet, ExceptionCheck _ => Broken
  | Quiet, ExceptionDescribe => Broken
  | Quiet, ExceptionClear => Broken
  | Quiet, _ => Quiet
  | Called d, ExceptionCheck true => Raised d
  | Called _, ExceptionCheck false => Quiet
  | Raised true, ExceptionDescribe => Described
  | Raised false, ExceptionClear => Quiet
  | Described, ExceptionClear => Quiet
  | _, _ => Broken
  end.

Definition handling_after (t : list Call) (h : Handling) : Handling :=
  List.fold_left handle t h.

(** The worker is past the start of [app_function], and a session whose
    worker is in the loop has the objects of [e] in its fields. *)
Definition built_from (e : Made) (m : Machine) : Prop :=
  gst_app_thread m <> T_spawned
  /\ forall d, native_custom_data m = Some d ->
               gst_app_thread m = T_looping ->
               ahcsrc d = made_ahcsrc e /\ vsink d = made_vsink e
               /\ filter d = made_filter e /\ pipeline d = made_pipeline e
               /\ main_loop d = Some (made_loop e).

(** ** Readiness checks that overlap

    [step] runs every function to its end before the next command
    starts.  [check_initialization_complete] takes no lock, and it is
    called by the worker (line 242) and by the host (line 369): its test
    (line 177) and its setting of the flag (line 181) can be separated by
    the other thread.  The definitions below cut the two callers at those
    points, so that a schedule can place the parts of one thread between
    the parts of the other.  The host is taken to make its calls one
    after the other. *)

(** Line 177: the test of [check_initialization_complete]. *)
Definition check_test (data : GstAhc) : bool :=
  negb (initialized data) && not_null (native_window data)
  && not_null (main_loop data).

(** Lines 178-187: what [check_initialization_complete] does once the
    test has come out as [passed]. *)
Definition check_finish (passed raised : bool) (data : GstAhc)
  : Traced GstAhc :=
  if passed then
    let data := set_initialized true data in
    call (CallVoidMethod (app data) on_gstreamer_initialized_method_id) ;;
    check_exception false raised ;;
    ret data
  else ret data.

(** [gst_native_surface_init], lines 351-367: from the null test of the
    session up to the call of the check. *)
Definition surface_init_store
    (surface : jobject) (window : option ANativeWindow) (ahc : GstAhc)
  : Traced GstAhc :=
  when (not_null (native_window ahc))
    (call (ANativeWindow_release (native_window ahc))) ;;
  call (ANativeWindow_fromSurface surface window) ;;
  let ahc := set_native_window window ahc in
  when (not_null (vsink ahc))
    (call (gst_video_overlay_set_window_handle
             (vsink ahc) (native_window ahc))) ;;
  ret ahc.

(** [app_function], lines 200-241: up to the call of the check. *)
Definition app_function_build (e : Made) (ahc : GstAhc) : Traced GstAhc :=
  call g_main_context_new ;;
  call (gst_element_factory_make "ahcsrc" (made_ahcsrc e)) ;;
  call (gst_element_factory_make "glimagesink" (made_vsink e)) ;;
  call (gst_element_factory_make "capsfilter" (made_filter e)) ;;
  call (gst_pipeline_new "camera-pipeline" (made_pipeline e)) ;;
  let ahc :=
    set_elements (made_ahcsrc e) (made_filter e) (made_vsink e)
      (made_pipeline e) ahc in
  call (gst_bin_add_many (pipeline ahc) [ahcsrc ahc; filter ahc; vsink ahc]) ;;
  call (gst_element_link_many [ahcsrc ahc; filter ahc; vsink ahc]) ;;
  when (not_null (native_window ahc))
    (call (gst_video_overlay_set_window_handle (vsink ahc) (native_window ahc))) ;;
  call (g_main_loop_new (made_loop e)) ;;
  ret (set_main_loop (Some (made_loop e)) ahc).

(** [app_function], line 243. *)
Definition app_function_run (ahc : GstAhc) : Traced GstAhc :=
  call (g_main_loop_run (main_loop ahc)) ;;
  ret ahc.

(** Where the host is inside [gst_native_surface_init]: outside of it,
    before the test of the check, or after the test with its outcome. *)
Inductive HostAt : Type :=
| H_idle
| H_stored
| H_tested (passed : bool).

(** Where the worker is on its way into the loop: at the start of
    [app_function], before the test of the check, after the test with
    its outcome, or after the check. *)
Inductive Startup : Type :=
| S_start
| S_built
| S_tested (passed : bool)
| S_checked.

Record Overlap : Type := mkOverlap {
  machine : Machine;
  host_at : HostAt;
  worker_at : Startup
}.

(** The parts a schedule is made of: a command run to its end as in
    [step], or one part of [gst_native_surface_init] or of the start of
    [app_function]. *)
Inductive Part : Type :=
| whole (c : Command)
| surface_store (surface : jobject) (window : option ANativeWindow)
| host_test
| host_finish (raised : bool)
| worker_build (e : Made)
| worker_test
| worker_finish (raised : bool)
| worker_run.

Definition is_worker_command (c : Command) : bool :=
  match c with
  | thread_enter _ _ | message_error _ _ _ | message_eos
  | message_state_changed _ _ _ => true
  | _ => false
  end.

(** A part of a function on the session struct, which leaves the host at
    [h], the worker at [w] and the thread at [th]. *)
Definition on_session
    (f : GstAhc -> Traced GstAhc) (h : HostAt) (w : Startup) (th : Thread)
    (o : Overlap) : Traced Overlap :=
  match native_custom_data (machine o) with
  | None => ret o
  | Some d =>
      d <- f d ;;
      ret {| machine := {| native_custom_data := Some d;
                           gst_app_thread := th;
                           host_joining := host_joining (machine o) |};
             host_at := h; worker_at := w |}
  end.

(** One part.  A part happens only where its thread stands in front of
    it: a host call when the host is outside [gst_native_surface_init]
    (and not in [pthread_join]), a whole [app_function] start when the
    worker has not begun it, a later part when the part before it is
    done. *)
Definition part (k : Part) (o : Overlap) : Traced Overlap :=
  let m := machine o in
  let stay (m' : Machine) :=
    {| machine := m'; host_at := host_at o; worker_at := worker_at o |} in
  match k with
  | whole c =>
      if is_worker_command c then
        match c, worker_at o with
        | thread_enter _ _, S_start => m' <- step c m ;; ret (stay m')
        | thread_enter _ _, _ => ret o
        | _, _ => m' <- step c m ;; ret (stay m')
        end
      else
        match host_at o with
        | H_idle => m' <- step c m ;; ret (stay m')
        | _ => ret o
        end
  | surface_store surface window =>
      match host_at o, host_joining m with
      | H_idle, false =>
          on_session (surface_init_store surface window)
            H_stored (worker_at o) (gst_app_thread m) o
      | _, _ => ret o
      end
  | host_test =>
      match host_at o, native_custom_data m with
      | H_stored, Some d =>
          ret {| machine := m; host_at := H_tested (check_test d);
                 worker_at := worker_at o |}
      | _, _ => ret o
      end
  | host_finish raised =>
      match host_at o with
      | H_tested passed =>
          on_session (check_finish passed raised)
            H_idle (worker_at o) (gst_app_thread m) o
      | _ => ret o
      end
  | worker_build e =>
      match worker_at o, gst_app_thread m with
      | S_start, T_spawned =>
          on_session (app_function_build e) (host_at o) S_built T_spawned o
      | _, _ => ret o
      end
  | worker_test =>
      match worker_at o, gst_app_thread m, native_custom_data m with
      | S_built, T_spawned, Some d =>
          ret {| machine := m; host_at := host_at o;
                 worker_at := S_tested (check_test d) |}
      | _, _, _ => ret o
      end
  | worker_finish raised =>
      match worker_at o, gst_app_thread m with
      | S_tested passed, T_spawned =>
          on_session (check_finish passed raised)
            (host_at o) S_checked T_spawned o
      | _, _ => ret o
      end
  | worker_run =>
      match worker_at o, gst_app_thread m with
      | S_checked, T_spawned =>
          on_session app_function_run (host_at o) S_checked T_looping o
      | _, _ => ret o
      end
  end.

Fixpoint schedule (ks : list Part) (o : Overlap) : Traced Overlap :=
  match ks with
  | [] => ret o
  | k :: ks' => o' <- part k o ;; schedule ks' o'
  end.

(** Both threads in front of their functions. *)
Definition at_rest (m : Machine) : Overlap :=
  {| machine := m; host_at := H_idle; worker_at := S_start |}.

(** Which thread is between the test of a readiness check and its end. *)
Inductive Checking : Type :=
| nobody
| host_checking
| worker_checking.

(** Commands that contain a readiness check. *)
Definition has_check (c : Command) : bool :=
  match c with
  | nativeSurfaceInit _ _ _ | thread_enter _ _ => true
  | _ => false
  end.

(** The checks of a schedule are apart: no check is tested, neither as a
    part nor inside a whole command, while a check of the other thread
    is between its test and its end. *)
Fixpoint apart (ks : list Part) (who : Checking) : bool :=
  match ks with
  | [] => true
  | k :: ks' =>
      match k, who with
      | host_test, nobody => apart ks' host_checking
      | host_test, _ => false
      | host_finish _, host_checking => apart ks' nobody
      | worker_test, nobody => apart ks' worker_checking
      | worker_test, _ => false
      | worker_finish _, worker_checking => apart ks' nobody
      | whole c, nobody => apart ks' nobody
      | whole c, _ => if has_check c then false else apart ks' who
      | _, _ => apart ks' who
      end
  end.






(** No restriction on the commands of a run. *)
Definition any_command (c : Command) : bool := true.

(** ** Proof tools *)

Unset Implicit Arguments.

Ltac traced :=
  unfold on_host, on_worker, bind, call, ret, when, check_exception; cbn.

Lemma snd_bind {A B : Type} (x : Traced A) (f : A -> Traced B) :
  snd (bind x f) = snd x ++ snd (f (fst x)).
Proof. reflexivity. Qed.

Lemma fst_bind {A B : Type} (x : Traced A) (f : A -> Traced B) :
  fst (bind x f) = fst (f (fst x)).
Proof. reflexivity. Qed.

Lemma count_app (p : Call -> bool) (a b : list Call) :
  count p (a ++ b) = count p a + count p b.
Proof. unfold count. now rewrite List.filter_app, List.length_app. Qed.

(** ** reconfigure *)

(** C9.  On a live session [gst_native_change_resolution] makes exactly
    three calls, in this order: a request to take the pipeline to READY,
    the setting of the "caps" property of the format filter to caps that
    carry the given width and height, and a request to take the pipeline
    to PAUSED.  The session struct is left as it was. *)
Theorem change_resolution_steps :
  forall (ahc : GstAhc) (th : Thread) (width height : Z),
    let m := {| native_custom_data := Some ahc; gst_app_thread := th;
                host_joining := false |} in
    step (nativeChangeResolution width height) m =
      (m,
       [ gst_element_set_state (pipeline ahc) GST_STATE_READY;
         g_object_set (filter ahc) "caps"
           (GST_TYPE_CAPS {| media_type := "video/x-raw";
                             caps_width := width;
                             caps_height := height |});
         gst_element_set_state (pipeline ahc) GST_STATE_PAUSED ]).
Proof. intros. reflexivity. Qed.

(** ** Capture parameters *)

(** C7.  On a live session each of the three setters makes one call, on
    the stage the parameter belongs to (the source for white balance and
    autofocus, the sink for rotation) and with the value it was given; it
    makes no state-transition request and leaves the session struct as it
    was.  The call carries the stage pointer as it is in the struct: when
    the stage has not been constructed the pointer is [NULL], the library
    rejects the call, and no call that can fault is made. *)
Theorem set_parameter_forwards :
  forall (ahc : GstAhc) (th : Thread) (wb_mode method : Z) (enabled : bool),
    let m := {| native_custom_data := Some ahc; gst_app_thread := th;
                host_joining := false |} in
    let wb := g_object_set (ahcsrc ahc) GST_PHOTOGRAPHY_PROP_WB_MODE
                (G_TYPE_INT wb_mode) in
    let af := gst_photography_set_autofocus (ahcsrc ahc) enabled in
    let rot := g_object_set (vsink ahc) "rotate-method" (G_TYPE_INT method) in
    step (nativeSetWhiteBalance wb_mode) m = (m, [wb])
    /\ step (nativeSetAutoFocus enabled) m = (m, [af])
    /\ step (nativeSetRotateMethod method) m = (m, [rot])
    /\ state_requests [wb; af; rot] = []
    /\ List.existsb is_set_state [wb; af; rot] = false
    /\ List.existsb faulting [wb; af; rot] = false
    /\ rejected wb = negb (not_null (ahcsrc ahc))
    /\ rejected af = negb (not_null (ahcsrc ahc))
    /\ rejected rot = negb (not_null (vsink ahc)).
Proof.
  intros. subst m wb af rot.
  repeat split; try reflexivity.
  - now destruct (ahcsrc ahc).
  - now destruct (ahcsrc ahc).
  - now destruct (vsink ahc).
Qed.

(** ** play and pause before the pipeline exists *)

Lemma play_pause_step_no_pipeline (c : Command) (m : Machine) (ahc : GstAhc) :
  native_custom_data m = Some ahc ->
  pipeline ahc = None ->
  is_play_or_pause c = true ->
  fst (step c m) = m
  /\ List.Forall (fun k => exists s, k = gst_element_set_state None s)
       (snd (step c m)).
Proof.
  intros Hd Hp Hc.
  destruct c; try discriminate Hc; cbn [step]; unfold on_host;
    destruct (host_joining m); cbn; auto;
    [unfold gst_native_play | unfold gst_native_pause];
    rewrite Hd, Hp; cbn; split; auto;
    constructor; eauto.
Qed.

(** C3.  Take a live session whose pipeline pointer is still [NULL] (the
    worker has not constructed the pipeline) and any sequence of
    [nativePlay] / [nativePause] calls.  The run leaves the machine as it
    was; every call it makes is a [gst_element_set_state] on the [NULL]
    element, which the library rejects, so no state-transition request
    reaches an element; and no call that can fault is made. *)
Theorem play_pause_before_pipeline :
  forall (cs : list Command) (m : Machine) (ahc : GstAhc),
    native_custom_data m = Some ahc ->
    pipeline ahc = None ->
    List.forallb is_play_or_pause cs = true ->
    fst (run cs m) = m
    /\ List.Forall (fun k => exists s, k = gst_element_set_state None s)
         (snd (run cs m))
    /\ state_requests (snd (run cs m)) = []
    /\ List.forallb rejected (snd (run cs m)) = true
    /\ List.existsb faulting (snd (run cs m)) = false.
Proof.
  intros cs m ahc Hd Hp Hcs.
  assert (H : fst (run cs m) = m
              /\ List.Forall (fun k => exists s, k = gst_element_set_state None s)
                   (snd (run cs m))).
  { induction cs as [|c cs IH]; cbn [run].
    - split; [reflexivity | constructor].
    - cbn in Hcs. apply andb_true_iff in Hcs. destruct Hcs as [Hc Hcs].
      destruct (play_pause_step_no_pipeline c m ahc Hd Hp Hc) as [Hm Ht].
      rewrite fst_bind, snd_bind, Hm.
      destruct (IH Hcs) as [IHm IHt].
      split; [exact IHm | apply List.Forall_app; split; assumption]. }
  destruct H as [Hm Ht]. split; [exact Hm | split; [exact Ht |]].
  induction Ht as [|k t [s Hk] _ IHt]; cbn.
  - auto.
  - subst k. cbn. exact IHt.
Qed.

Lemma play_pause_before_pipeline_witness :
  let cs := [nativePlay; nativePause; nativePlay] in
  fst (run cs started_machine) = started_machine
  /\ state_requests (snd (run cs started_machine)) = [].
Proof.
  intros cs.
  destruct (play_pause_before_pipeline cs started_machine
              (set_app (Some 9%positive) zeroed))
    as (H1 & _ & H3 & _); [reflexivity | reflexivity | reflexivity |].
  split; assumption.
Defined.

(** ** Shutdown *)

Lemma finalize_completed_resets (m : Machine) :
  host_joining (fst (gst_native_finalize m)) = false ->
  native_custom_data (fst (gst_native_finalize m)) = None.
Proof.
  unfold gst_native_finalize.
  destruct (native_custom_data m) as [data|] eqn:Hd; [|cbn; auto].
  destruct (gst_app_thread m), (main_loop data); cbn; auto; discriminate.
Qed.

Lemma step_without_session (c : Command) (m : Machine) :
  native_custom_data m = None -> step c m = (m, []).
Proof.
  intros Hd.
  destruct c; cbn [step]; unfold on_host, on_worker;
    try (destruct (gst_app_thread m)); try (destruct (host_joining m));
    try reflexivity;
    unfold gst_native_finalize, gst_native_play, gst_native_pause,
      gst_native_surface_init, gst_native_surface_finalize,
      gst_native_change_resolution, gst_native_set_rotate_method,
      gst_native_set_white_balance, gst_native_set_auto_focus;
    rewrite Hd; reflexivity.
Qed.

(** C10.  When [gst_native_finalize] has run to its end (the host is back
    from [pthread_join]), the [native_custom_data] field holds null; and
    on that machine every entry point that starts by reading the field
    (play, pause, change of resolution, surface init and finalize, the
    three parameter setters and finalize itself) returns at once: the
    machine is unchanged and no call is made. *)
Theorem after_finalize_all_noop :
  forall (m : Machine),
    host_joining (fst (gst_native_finalize m)) = false ->
    let m' := fst (gst_native_finalize m) in
    native_custom_data m' = None
    /\ gst_native_finalize m' = (m', [])
    /\ gst_native_play m' = (m', [])
    /\ gst_native_pause m' = (m', [])
    /\ (forall width height,
          gst_native_change_resolution width height m' = (m', []))
    /\ (forall surface window raised,
          gst_native_surface_init surface window raised m' = (m', []))
    /\ gst_native_surface_finalize m' = (m', [])
    /\ (forall wb_mode, gst_native_set_white_balance wb_mode m' = (m', []))
    /\ (forall enabled, gst_native_set_auto_focus enabled m' = (m', []))
    /\ (forall method, gst_native_set_rotate_method method m' = (m', []))
    /\ (forall c, step c m' = (m', [])).
Proof.
  intros m Hdone m'.
  assert (Hnull : native_custom_data m' = None)
    by exact (finalize_completed_resets m Hdone).
  clearbody m'.
  unfold gst_native_finalize, gst_native_play, gst_native_pause, gst_native_change_resolution,
    gst_native_surface_init, gst_native_surface_finalize,
    gst_native_set_white_balance, gst_native_set_auto_focus,
    gst_native_set_rotate_method.
  rewrite Hnull.
  repeat split; try reflexivity.
  intros c. now apply step_without_session.
Qed.

Lemma after_finalize_all_noop_witness :
  let m' := fst (gst_native_finalize playing_machine) in
  native_custom_data m' = None /\ gst_native_play m' = (m', []).
Proof.
  intros m'.
  destruct (after_finalize_all_noop playing_machine) as (H1 & _ & H3 & _);
    [reflexivity |].
  split; assumption.
Defined.

(** C5.  (1) A second [gst_native_finalize] after one that ran to its end
    returns at once, without a call.  (2) On a live session whose worker
    has already left [app_function], [gst_native_finalize] runs to its
    end: the host is not left in [pthread_join], the field is reset and no
    call that can fault is made.  (3) On a live session whose worker sits
    in the main loop, the first call asks the loop to quit, the worker
    runs the rest of [app_function], and only then does [pthread_join]
    return, followed by the release of the global reference, the freeing
    of the struct and the reset of the field; the thread ends up
    joined. *)
Theorem finalize_idempotent :
  (forall (m : Machine),
     host_joining (fst (gst_native_finalize m)) = false ->
     gst_native_finalize (fst (gst_native_finalize m)) =
       (fst (gst_native_finalize m), []))
  /\ (forall (data : GstAhc),
        let r := gst_native_finalize
                   {| native_custom_data := Some data;
                      gst_app_thread := T_exited;
                      host_joining := false |} in
        host_joining (fst r) = false
        /\ native_custom_data (fst r) = None
        /\ gst_app_thread (fst r) = T_joined
        /\ List.existsb faulting (snd r) = false)
  /\ (forall (data : GstAhc) (loop : GMainLoop),
        main_loop data = Some loop ->
        let r := gst_native_finalize
                   {| native_custom_data := Some data;
                      gst_app_thread := T_looping;
                      host_joining := false |} in
        fst r = {| native_custom_data := None;
                   gst_app_thread := T_joined;
                   host_joining := false |}
        /\ snd r =
             g_main_loop_quit (Some loop)
             :: snd (app_function_leave data)
             ++ [ pthread_join true; DeleteGlobalRef (app data);
                  g_free; SetLongField true ]
        /\ List.existsb faulting (snd r) = false).
Proof.
  split; [|split].
  - intros m Hdone.
    pose proof (finalize_completed_resets m Hdone) as Hnull.
    unfold gst_native_finalize at 1. now rewrite Hnull.
  - intros data r. subst r.
    unfold gst_native_finalize; cbn.
    repeat split.
  - intros data loop Hloop r. subst r.
    destruct data as [a p l w s src flt sink i]; cbn in Hloop; subst l.
    repeat split.
Qed.

Lemma finalize_idempotent_witness :
  let r := gst_native_finalize playing_machine in
  gst_native_finalize (fst r) = (fst r, [])
  /\ gst_app_thread (fst r) = T_joined
  /\ first_index (fun c => match c with pthread_join _ => true | _ => false end)
       (snd r) = Some 8.
Proof.
  intros r.
  destruct finalize_idempotent as (H1 & _ & H3).
  split; [apply (H1 playing_machine); reflexivity |].
  destruct (H3 playing_session 2%positive) as (Hm & Ht & _); [reflexivity |].
  fold playing_machine in Hm, Ht. fold r in Hm, Ht.
  rewrite Hm, Ht. split; reflexivity.
Defined.

(** ** start *)

(** C6, as the code has it.  [gst_native_init] allocates a zeroed session,
    stores it in the host field, takes a global reference to the host
    object, asks for the worker thread and returns.  The answer of
    [pthread_create] only decides whether a thread exists afterwards: it
    changes nothing in what the caller gets back, which is a session in
    both cases. *)
Theorem native_init_ignores_thread_creation :
  forall (global_ref : option jobject) (thread_created : bool) (m : Machine),
    gst_native_init global_ref thread_created m =
      ({| native_custom_data := Some (set_app global_ref zeroed);
          gst_app_thread :=
            if thread_created then T_spawned else gst_app_thread m;
          host_joining := host_joining m |},
       [ g_malloc0; SetLongField false; NewGlobalRef global_ref;
         pthread_create thread_created ])
    /\ start_result (gst_native_init global_ref thread_created m) =
         SessionHandle (set_app global_ref zeroed)
    /\ start_result (gst_native_init global_ref false m) =
         start_result (gst_native_init global_ref true m).
Proof. intros. repeat split. Qed.

(** C6 as stated fails: with [pthread_create] failing, the caller of
    [nativeInit] on a fresh host object is not given an error, it is left
    with a session (and no thread). *)
Lemma native_init_thread_failure_not_reported :
  start_result (gst_native_init (Some 9%positive) false boot) <> InitError
  /\ gst_app_thread (fst (gst_native_init (Some 9%positive) false boot)) = T_none.
Proof. split; [discriminate | reflexivity]. Qed.

(** ** Surface injection with a token that yields no window *)

(** C8, as the code has it.  When [ANativeWindow_fromSurface] returns
    [NULL], [gst_native_surface_init] has already released the window the
    session held (if it held one); it then stores [NULL] in
    [native_window], and when the sink exists, gives it the [NULL] handle.
    No notification is sent.  So after the call the session holds no
    window, and a sink that exists is bound to none. *)
Theorem surface_init_null_window :
  forall (ahc : GstAhc) (th : Thread) (surface : jobject) (raised : bool)
         (bound : option ANativeWindow),
    let m := {| native_custom_data := Some ahc; gst_app_thread := th;
                host_joining := false |} in
    let r := step (nativeSurfaceInit surface None raised) m in
    fst r = with_data (set_native_window None ahc) m
    /\ snd r =
         (if not_null (native_window ahc)
          then [ANativeWindow_release (native_window ahc)] else [])
         ++ [ANativeWindow_fromSurface surface None]
         ++ (if not_null (vsink ahc)
             then [gst_video_overlay_set_window_handle (vsink ahc) None]
             else [])
    /\ bound_window (snd r) bound =
         (if not_null (vsink ahc) then None else bound)
    /\ count is_release (snd r) =
         (if not_null (native_window ahc) then 1 else 0).
Proof.
  intros ahc th surface raised bound m r. subst r m.
  destruct ahc as [a p l w s src flt sink i].
  destruct w, sink, i, l, raised; repeat split.
Qed.

(** C8 as stated fails: a playing session that holds window 7, bound to
    its sink, is given a surface for which no window can be had.  The
    call releases window 7, leaves the session without a window and binds
    the sink to the [NULL] handle. *)
Lemma surface_init_null_window_drops_previous :
  let r := step (nativeSurfaceInit 11%positive None false) playing_machine in
  ~ (option_map native_window (native_custom_data (fst r))
       = Some (Some 7%positive)
     /\ bound_window (snd r) (Some 7%positive) = Some 7%positive
     /\ count is_release (snd r) = 0).
Proof. cbn. intros (H & _). discriminate H. Qed.

(** ** Pipeline errors *)

(** C1, as the code has it.  [on_error] first notifies the host through
    [onError] and only as its last action requests the NULL state of the
    pipeline; it does not touch the recorded state.  The NULL state is
    recorded, and reported through [onStateChanged], when the
    state-changed message of the pipeline itself is handled by
    [state_changed_cb]. *)
Theorem on_error_notifies_then_stops :
  forall (src_name err_message : string) (raised : bool) (ahc : GstAhc),
    let message :=
      ("Error received from element " ++ src_name ++ ": " ++ err_message)%string in
    let r := on_error src_name err_message raised ahc in
    fst r = ahc
    /\ snd r =
         [ NewStringUTF message;
           CallVoidMethod (app ahc) (on_error_method_id message);
           ExceptionCheck raised ]
         ++ (if raised then [ExceptionClear] else [])
         ++ [ DeleteLocalRef;
              gst_element_set_state (pipeline ahc) GST_STATE_NULL ]
    /\ precedes is_on_error is_null_request (snd r) = true
    /\ precedes is_null_request is_on_error (snd r) = false
    /\ (let r' := state_changed_cb (pipeline ahc) GST_STATE_NULL raised ahc in
        state (fst r') = GST_STATE_NULL
        /\ List.hd_error (snd r') =
             Some (CallVoidMethod (app ahc)
                     (on_state_changed_method_id GST_STATE_NULL))).
Proof.
  intros src_name err_message raised ahc message r. subst r message.
  assert (Hsrc : ptr_eqb (pipeline ahc) (pipeline ahc) = true).
  { destruct (pipeline ahc); cbn; [apply Pos.eqb_refl | reflexivity]. }
  unfold state_changed_cb. rewrite Hsrc.
  destruct raised; repeat split.
Qed.

(** C1 as stated fails: on a playing session, [on_error] calls [onError]
    before it requests the NULL state, and returns with PLAYING still
    recorded. *)
Lemma on_error_host_notified_first :
  let r := on_error "ahcsrc" "camera gone" false playing_session in
  ~ (precedes is_null_request is_on_error (snd r) = true)
  /\ ~ (state (fst r) = GST_STATE_NULL)
  /\ state (fst r) = GST_STATE_PLAYING.
Proof. cbn. repeat split; discriminate. Qed.

(** ** The one-time notification *)

Lemma check_initialization_complete_fires (raised : bool) (data : GstAhc) :
  let ready := negb (initialized data) && not_null (native_window data)
               && not_null (main_loop data) in
  count is_on_initialized (snd (check_initialization_complete raised data))
    = (if ready then 1 else 0)
  /\ initialized (fst (check_initialization_complete raised data))
     = initialized data || ready.
Proof.
  destruct data as [a p l w s src flt sink i].
  destruct i, w, l, raised; split; reflexivity.
Qed.

Lemma step_notifications (c : Command) (m : Machine) :
  count is_on_initialized (snd (step c m))
  + pending_notifications (fst (step c m)) <= pending_notifications m.
Proof.
  destruct m as [[[a p l w s src flt sink i]|] th hj].
  - destruct c; cbn [step]; unfold on_host, on_worker;
      cbn [host_joining gst_app_thread native_custom_data];
      try (destruct hj; [destruct i; cbn; lia |]).
    + (* nativeFinalize *)
      destruct th, l, i; cbn; lia.
    + destruct i; cbn; lia.
    + destruct i; cbn; lia.
    + (* nativeSurfaceInit *)
      destruct i, w, window, sink, l, raised; cbn; lia.
    + destruct i; cbn; lia.
    + destruct i; cbn; lia.
    + destruct i; cbn; lia.
    + destruct i; cbn; lia.
    + destruct i; cbn; lia.
    + (* thread_enter *)
      destruct th; try (destruct i; cbn; lia).
      destruct i, w, raised; cbn; lia.
    + destruct th; try (destruct i; cbn; lia).
      destruct i, raised; cbn; lia.
    + destruct th; destruct i; cbn; lia.
    + (* message_state_changed *)
      destruct th; try (destruct i; cbn; lia).
      unfold state_changed_cb; cbn [pipeline].
      destruct (ptr_eqb msg_src p); destruct i, raised; cbn; lia.
  - rewrite step_without_session by reflexivity. cbn. lia.
Qed.

(** Runs of whole commands.  Along every run in which each command runs
    to its end before the next one starts (host calls, among them surface
    init and surface finalize, and worker steps, in any order) the
    number of "initialization complete" notifications sent plus the
    number the machine can still send never exceeds what it could send at
    the start, and that is at most one.  So the notification is sent at
    most once, and once the flag is set it is not sent again.  The
    readiness check sends it, and sets the flag, exactly when the flag is
    clear, a window is installed and the main loop exists. *)
Theorem initialized_at_most_once :
  forall (cs : list Command) (m : Machine),
    count is_on_initialized (snd (run cs m))
      + pending_notifications (fst (run cs m)) <= pending_notifications m
    /\ pending_notifications m <= 1
    /\ (forall (raised : bool) (data : GstAhc),
          let ready := negb (initialized data)
                       && not_null (native_window data)
                       && not_null (main_loop data) in
          let r := check_initialization_complete raised data in
          count is_on_initialized (snd r) = (if ready then 1 else 0)
          /\ initialized (fst r) = initialized data || ready).
Proof.
  intros cs m. split; [|split].
  - revert m. induction cs as [|c cs IH]; intros m; cbn [run].
    + cbn. lia.
    + rewrite fst_bind, snd_bind, count_app.
      pose proof (step_notifications c m).
      pose proof (IH (fst (step c m))). lia.
  - unfold pending_notifications.
    destruct (native_custom_data m) as [d|]; [destruct (initialized d)|]; lia.
  - intros raised data. apply check_initialization_complete_fires.
Qed.

(** The notification does go out, once: surface, then the worker reaches
    its loop, then the surface is retracted and injected again. *)
Example initialized_once_on_reinjection :
  count is_on_initialized
    (snd (run [ nativeSurfaceInit 11%positive (Some 7%positive) false;
                thread_enter (mkMade (Some 3%positive) (Some 5%positive)
                                (Some 4%positive) (Some 1%positive) 2%positive)
                  false;
                nativeSurfaceFinalize;
                nativeSurfaceInit 12%positive (Some 8%positive) false ]
            started_machine)) = 1.
Proof. reflexivity. Qed.

(** ** Replacing the surface *)

Lemma live_after_app (a b : list Call) (live : list ANativeWindow) :
  live_after (a ++ b) live = live_after b (live_after a live).
Proof. revert live. induction a; intros; cbn; auto. Qed.






(** A remark on the start of a session: [gst_native_finalize] called
    before the worker has reached its loop finds [main_loop] still
    [NULL]; the quit request is rejected and the host stays in
    [pthread_join], with the session still in the field. *)
Remark finalize_before_loop_blocks :
  let r := gst_native_finalize started_machine in
  host_joining (fst r) = true
  /\ native_custom_data (fst r) = native_custom_data started_machine
  /\ snd r = [g_main_loop_quit None].
Proof. repeat split. Qed.

(** ** Invariants of a run *)

(** A property of machines that every allowed step keeps, with a property
    of traces that every such step has and that is closed under
    concatenation, holds of every run of allowed steps. *)
Section RunInvariant.

Variable allowed : Command -> bool.
Variable Inv : Machine -> Prop.
Variable Ok : list Call -> Prop.

Hypothesis Ok_nil : Ok [].
Hypothesis Ok_app : forall a b, Ok a -> Ok b -> Ok (a ++ b).
Hypothesis step_keeps :
  forall c m, allowed c = true -> Inv m ->
              Inv (fst (step c m)) /\ Ok (snd (step c m)).

Lemma run_keeps :
  forall cs m, List.forallb allowed cs = true -> Inv m ->
               Inv (fst (run cs m)) /\ Ok (snd (run cs m)).
Proof.
  induction cs as [|c cs IH]; intros m Hcs Hm; cbn [run].
  - cbn. auto.
  - cbn in Hcs. apply andb_true_iff in Hcs. destruct Hcs as [Hc Hcs].
    destruct (step_keeps c m Hc Hm) as [Hm' Ht].
    destruct (IH _ Hcs Hm') as [Hm'' Ht'].
    rewrite fst_bind, snd_bind. auto.
Qed.

End RunInvariant.

Lemma forallb_any_command (cs : list Command) :
  List.forallb any_command cs = true.
Proof. induction cs; cbn; auto. Qed.

Lemma forallb_app_true {A : Type} (p : A -> bool) (a b : list A) :
  List.forallb p a = true -> List.forallb p b = true ->
  List.forallb p (a ++ b) = true.
Proof. intros Ha Hb. rewrite List.forallb_app, Ha, Hb. reflexivity. Qed.

Lemma existsb_app_false {A : Type} (p : A -> bool) (a b : list A) :
  List.existsb p a = false -> List.existsb p b = false ->
  List.existsb p (a ++ b) = false.
Proof. intros Ha Hb. rewrite List.existsb_app, Ha, Hb. reflexivity. Qed.

Lemma ptr_eqb_eq (a b : option positive) : ptr_eqb a b = true <-> a = b.
Proof.
  destruct a as [x|], b as [y|]; cbn; split; intros H;
    try discriminate; try reflexivity.
  - apply Pos.eqb_eq in H. now subst.
  - injection H as ->. apply Pos.eqb_refl.
Qed.

(** Opens a step on a live session into the code of the function it
    runs. *)
Ltac open_step :=
  cbn [step];
  unfold on_host, on_worker, gst_native_finalize, gst_native_play,
    gst_native_pause, gst_native_surface_init, gst_native_surface_finalize,
    gst_native_change_resolution, gst_native_set_rotate_method,
    gst_native_set_white_balance, gst_native_set_auto_focus,
    app_function_enter, app_function_leave, on_error, eos_cb,
    state_changed_cb, check_initialization_complete, check_exception, when;
  cbn [host_joining gst_app_thread native_custom_data app pipeline
       main_loop native_window state ahcsrc filter vsink initialized
       set_native_window set_main_loop set_elements set_state
       set_initialized set_app negb andb not_null].

(** Splits on the variables that the code under the goal tests. *)
Ltac split_tests :=
  repeat (match goal with
          | |- context [match ?x with _ => _ end] => is_var x; destruct x
          | |- context [if ?x then _ else _] => is_var x; destruct x
          | |- context [negb ?x] => is_var x; destruct x
          | |- context [not_null ?x] => is_var x; destruct x
          | |- context [ptr_eqb ?a ?b] =>
              let E := fresh "E" in destruct (ptr_eqb a b) eqn:E
          end; cbn [negb andb orb not_null]).

Lemma step_targets (o : option jobject) (c : Command) (m : Machine) :
  notifies o m = true ->
  notifies o (fst (step c m)) = true
  /\ List.forallb (targets o) (snd (step c m)) = true.
Proof.
  intros H.
  destruct m as [[[a p l w s src flt sink i]|] th hj].
  2:{ rewrite step_without_session by reflexivity. auto. }
  cbn in H.
  destruct c; open_step; split_tests; cbn; rewrite ?H; auto.
Qed.

(** ** The recorded state and the host's view of it *)

Lemma last_reported_app (a b : list Call) (s : GstState) :
  last_reported (a ++ b) s = last_reported b (last_reported a s).
Proof.
  revert s. induction a as [|c a IH]; intros s; cbn; [reflexivity |].
  destruct c; auto. destruct method; auto.
Qed.

Lemma step_records (c : Command) (m : Machine) (s0 : GstState) :
  records m s0 ->
  records (fst (step c m)) (last_reported (snd (step c m)) s0).
Proof.
  intros H.
  destruct m as [[[a p l w s src flt sink i]|] th hj].
  2:{ rewrite step_without_session by reflexivity. exact I. }
  unfold records in *. cbn in H. subst s0.
  destruct c; open_step; split_tests; cbn; auto.
Qed.

(** X1.  Along every run of a live session, whatever the host requests
    and whatever messages arrive, the state recorded in the session is
    the state last reported to the host through [onStateChanged] (the
    state recorded at the start when nothing was reported): the record
    changes only together with a report, never on a request. *)
Theorem recorded_state_is_last_reported :
  forall (cs : list Command) (d : GstAhc) (th : Thread) (hj : bool),
    let r := run cs {| native_custom_data := Some d; gst_app_thread := th;
                       host_joining := hj |} in
    match native_custom_data (fst r) with
    | Some d' => state d' = last_reported (snd r) (state d)
    | None => True
    end.
Proof.
  intros cs d th hj r. subst r.
  assert (H : forall cs m s0,
             records m s0 ->
             records (fst (run cs m)) (last_reported (snd (run cs m)) s0)).
  { clear. induction cs as [|c cs IH]; intros m s0 Hm; cbn [run].
    - exact Hm.
    - rewrite fst_bind, snd_bind, last_reported_app.
      apply IH. now apply step_records. }
  apply (H cs _ (state d)). reflexivity.
Qed.

(** The report does follow a change: the pipeline goes to PAUSED, a child
    reports PLAYING, the host asks for PLAYING. *)
Example recorded_state_after_messages :
  let r := run [ message_state_changed (Some 1%positive) GST_STATE_PAUSED false;
                 message_state_changed (Some 3%positive) GST_STATE_PLAYING false;
                 nativePlay ] playing_machine in
  option_map state (native_custom_data (fst r)) = Some GST_STATE_PAUSED
  /\ last_reported (snd r) GST_STATE_PLAYING = GST_STATE_PAUSED.
Proof. split; reflexivity. Qed.

(** X2.  A host call other than [nativeFinalize] leaves the session in
    place and does not write the fields that belong to the worker (the
    global reference, the pipeline and its three elements, the main loop,
    the recorded state); the thread is where it was. *)
Theorem host_requests_leave_worker_fields :
  forall (c : Command) (d : GstAhc) (th : Thread) (hj : bool),
    is_host_request c = true ->
    let m := {| native_custom_data := Some d; gst_app_thread := th;
                host_joining := hj |} in
    exists d',
      native_custom_data (fst (step c m)) = Some d'
      /\ worker_fields d' = worker_fields d
      /\ gst_app_thread (fst (step c m)) = th
      /\ host_joining (fst (step c m)) = hj.
Proof.
  intros c d th hj Hc m. subst m.
  destruct d as [a p l w s src flt sink i].
  destruct c; try discriminate Hc; open_step; split_tests; cbn;
    eexists; repeat split.
Qed.

Lemma host_requests_leave_worker_fields_witness :
  exists d',
    native_custom_data
      (fst (step (nativeSurfaceInit 11%positive (Some 8%positive) false)
              playing_machine)) = Some d'
    /\ worker_fields d' = worker_fields playing_session.
Proof.
  destruct (host_requests_leave_worker_fields
              (nativeSurfaceInit 11%positive (Some 8%positive) false)
              playing_session T_looping false eq_refl)
    as (d' & H1 & H2 & _).
  exists d'. split; assumption.
Defined.

(** ** Who stops the pipeline *)

Lemma step_no_null_request (c : Command) (m : Machine) :
  stops_pipeline c = false ->
  List.existsb is_null_request (snd (step c m)) = false.
Proof.
  intros Hc.
  destruct m as [[[a p l w s src flt sink i]|] th hj].
  2:{ rewrite step_without_session by reflexivity. reflexivity. }
  destruct c; try discriminate Hc; open_step; split_tests; reflexivity.
Qed.

(** X3.  The NULL state is requested only by the error handler and by the
    shutdown: a run without error messages and without [nativeFinalize]
    makes no request for the NULL state.  In particular the
    end-of-stream handler requests PAUSED and nothing else. *)
Theorem only_error_and_shutdown_stop :
  forall (cs : list Command) (m : Machine),
    List.forallb (fun c => negb (stops_pipeline c)) cs = true ->
    List.existsb is_null_request (snd (run cs m)) = false
    /\ (forall d : GstAhc,
          eos_cb d =
            (d, [gst_element_set_state (pipeline d) GST_STATE_PAUSED])).
Proof.
  intros cs m Hcs. split; [|reflexivity].
  apply (run_keeps (fun c => negb (stops_pipeline c)) (fun _ => True)
           (fun t => List.existsb is_null_request t = false));
    auto.
  - intros a b. apply existsb_app_false.
  - intros c m' Hc _. split; [exact I |].
    apply step_no_null_request. now apply negb_true_iff.
Qed.

Lemma only_error_and_shutdown_stop_witness :
  List.existsb is_null_request
    (snd (run [message_eos; nativePause; nativeChangeResolution 640 480]
            playing_machine)) = false.
Proof.
  apply (only_error_and_shutdown_stop
           [message_eos; nativePause; nativeChangeResolution 640 480]
           playing_machine).
  reflexivity.
Defined.

(** ** Exceptions raised by the host callbacks *)

Lemma pending_after_app (a b : list Call) (p : bool) :
  pending_after (a ++ b) p =
    match pending_after a p with
    | Some q => pending_after b q
    | None => None
    end.
Proof.
  revert p. induction a as [|c a IH]; intros p; cbn; [reflexivity |].
  destruct c; auto; destruct p; auto.
Qed.

Lemma step_clears_exceptions (c : Command) (m : Machine) :
  pending_after (snd (step c m)) false = Some false.
Proof.
  destruct m as [[[a p l w s src flt sink i]|] th hj].
  2:{ rewrite step_without_session by reflexivity. reflexivity. }
  destruct c; open_step; split_tests; reflexivity.
Qed.

Lemma step_handles_callbacks (c : Command) (m : Machine) :
  handling_after (snd (step c m)) Quiet = Quiet.
Proof.
  destruct m as [[[a p l w s src flt sink i]|] th hj].
  2:{ rewrite step_without_session by reflexivity. reflexivity. }
  destruct c; open_step; split_tests; reflexivity.
Qed.

(** X4.  Along every run, whichever of the host callbacks raise: each
    call of a Java method is followed at once by [ExceptionCheck]; when
    the check finds an exception pending, the next call is
    [ExceptionClear], or, for [onStateChanged] and only for it,
    [ExceptionDescribe] and then [ExceptionClear]; these three calls
    occur nowhere else.  So no other call is made while an exception is
    pending, and none is pending when the run ends. *)
Theorem callback_exceptions_cleared :
  forall (cs : list Command) (m : Machine),
    handling_after (snd (run cs m)) Quiet = Quiet
    /\ pending_after (snd (run cs m)) false = Some false.
Proof.
  intros cs m. split.
  - apply (run_keeps any_command (fun _ => True)
             (fun t => handling_after t Quiet = Quiet)); auto.
    + intros a b Ha Hb. unfold handling_after in *.
      now rewrite List.fold_left_app, Ha.
    + intros c m' _ _. split; [exact I | apply step_handles_callbacks].
    + apply forallb_any_command.
  - apply (run_keeps any_command (fun _ => True)
             (fun t => pending_after t false = Some false)); auto.
    + intros a b Ha Hb. now rewrite pending_after_app, Ha.
    + intros c m' _ _. split; [exact I | apply step_clears_exceptions].
    + apply forallb_any_command.
Qed.

(** The readings do tell a handled exception from one left pending, and
    the handler that describes from the ones that do not. *)
Example pending_after_tells :
  pending_after [ExceptionCheck true; DeleteLocalRef] false = None
  /\ pending_after [ExceptionCheck true] false = Some true
  /\ pending_after
       (snd (on_error "ahcsrc" "camera gone" true playing_session)) false
     = Some false.
Proof. repeat split. Qed.

Example handling_after_tells :
  let state_changed :=
    CallVoidMethod (Some 9%positive)
      (on_state_changed_method_id GST_STATE_PAUSED) in
  let initialized :=
    CallVoidMethod (Some 9%positive) on_gstreamer_initialized_method_id in
  handling_after
    [state_changed; ExceptionCheck true; ExceptionClear] Quiet = Broken
  /\ handling_after
       [state_changed; ExceptionCheck true; ExceptionClear; ExceptionDescribe]
       Quiet = Broken
  /\ handling_after
       [initialized; ExceptionCheck true; ExceptionDescribe; ExceptionClear]
       Quiet = Broken
  /\ handling_after [state_changed; DeleteLocalRef] Quiet = Broken
  /\ handling_after
       (snd (state_changed_cb (Some 1%positive) GST_STATE_PAUSED true
               playing_session)) Quiet = Quiet
  /\ snd (state_changed_cb (Some 1%positive) GST_STATE_PAUSED true
            playing_session)
     = [state_changed; ExceptionCheck true; ExceptionDescribe; ExceptionClear].
Proof. repeat split. Qed.

(** ** Surface and main loop, in either order *)


(** ** Sessions without a surface *)

Lemma step_windowless (c : Command) (m : Machine) :
  installs_window c = false ->
  windowless m = true ->
  windowless (fst (step c m)) = true
  /\ count is_on_initialized (snd (step c m)) = 0.
Proof.
  intros Hc Hm.
  destruct m as [[[a p l w s src flt sink i]|] th hj].
  2:{ rewrite step_without_session by reflexivity. auto. }
  cbn in Hm. destruct w; [discriminate Hm |].
  destruct c; open_step; split_tests; try discriminate Hc; cbn; auto;
    (destruct window; [discriminate Hc | auto]).
Qed.

(** X6.  A session that holds no window, run with any commands that
    install none (surface init may be called, as long as the acquisition
    yields no window), never sends the "initialization complete"
    notification, whether or not the worker has reached its loop. *)
Theorem no_window_no_notification :
  forall (cs : list Command) (m : Machine),
    windowless m = true ->
    List.forallb (fun c => negb (installs_window c)) cs = true ->
    count is_on_initialized (snd (run cs m)) = 0
    /\ windowless (fst (run cs m)) = true.
Proof.
  intros cs m Hm Hcs.
  destruct (run_keeps (fun c => negb (installs_window c))
              (fun m => windowless m = true)
              (fun t => count is_on_initialized t = 0)) with (cs := cs) (m := m)
    as [H1 H2]; auto.
  - intros a b Ha Hb. rewrite count_app. lia.
  - intros c m' Hc Hm'. apply step_windowless; auto.
    now apply negb_true_iff.
Qed.

Lemma no_window_no_notification_witness :
  count is_on_initialized
    (snd (run [ thread_enter (mkMade (Some 3%positive) (Some 5%positive)
                                (Some 4%positive) (Some 1%positive) 2%positive)
                  false;
                nativeSurfaceInit 11%positive None false;
                nativePlay; nativeSurfaceFinalize ]
            started_machine)) = 0.
Proof.
  apply (no_window_no_notification
           [ thread_enter (mkMade (Some 3%positive) (Some 5%positive)
                             (Some 4%positive) (Some 1%positive) 2%positive)
               false;
             nativeSurfaceInit 11%positive None false;
             nativePlay; nativeSurfaceFinalize ]
           started_machine); reflexivity.
Defined.

(** ** Retracting the surface *)

(** X7.  On a live session [gst_native_surface_finalize] passes the
    window the session holds to [ANativeWindow_release], clears the field
    and gives the sink the [NULL] handle; the readiness flag stays as it
    was.  It does not test the field first: on a session that holds no
    window the release is called with [NULL], which is the one call of
    this function that can fault. *)
Theorem surface_finalize_releases_held :
  forall (d : GstAhc) (th : Thread) (bound : option ANativeWindow),
    let m := {| native_custom_data := Some d; gst_app_thread := th;
                host_joining := false |} in
    let r := step nativeSurfaceFinalize m in
    fst r = with_data (set_native_window None d) m
    /\ snd r = [ ANativeWindow_release (native_window d);
                 gst_video_overlay_set_window_handle (vsink d) None ]
    /\ live_after (snd r) (held d) = []
    /\ bound_window (snd r) bound = (if not_null (vsink d) then None else bound)
    /\ List.existsb faulting (snd r) = negb (not_null (native_window d)).
Proof.
  intros d th bound m r. subst r m.
  destruct d as [a p l w s src flt sink i].
  destruct w, sink; cbn; rewrite ?Pos.eqb_refl; repeat split.
Qed.


(** ** What shutdown leaves behind *)

(** X9.  [gst_native_finalize] never releases the native window and never
    unbinds the sink: whatever window references are alive when it is
    called are alive when it returns.  A session that holds a window when
    it is finalized is destroyed with the reference to that window still
    alive. *)
Theorem finalize_keeps_window_alive :
  forall (m : Machine) (live : list ANativeWindow),
    count is_release (snd (gst_native_finalize m)) = 0
    /\ count is_bind (snd (gst_native_finalize m)) = 0
    /\ live_after (snd (gst_native_finalize m)) live = live
    /\ (forall (d : GstAhc) (loop : GMainLoop),
          main_loop d = Some loop ->
          let r := gst_native_finalize
                     {| native_custom_data := Some d;
                        gst_app_thread := T_looping;
                        host_joining := false |} in
          native_custom_data (fst r) = None
          /\ live_after (snd r) (held d) = held d).
Proof.
  intros m live.
  assert (H : forall m live,
             count is_release (snd (gst_native_finalize m)) = 0
             /\ count is_bind (snd (gst_native_finalize m)) = 0
             /\ live_after (snd (gst_native_finalize m)) live = live).
  { clear. intros m live.
    destruct m as [[[a p l w s src flt sink i]|] th hj]; [|repeat split].
    unfold gst_native_finalize, app_function_leave;
      cbn [native_custom_data gst_app_thread main_loop].
    destruct th, l; repeat split. }
  destruct (H m live) as (H1 & H2 & H3).
  split; [exact H1 | split; [exact H2 | split; [exact H3 |]]].
  intros d loop Hloop r. subst r. split.
  - destruct d as [a p l w s src flt sink i]. cbn in Hloop. subst l.
    reflexivity.
  - apply H.
Qed.

Lemma finalize_keeps_window_alive_witness :
  let r := gst_native_finalize playing_machine in
  native_custom_data (fst r) = None
  /\ live_after (snd r) [7%positive] = [7%positive].
Proof.
  destruct (finalize_keeps_window_alive playing_machine []) as (_ & _ & _ & H).
  exact (H playing_session 2%positive eq_refl).
Defined.

(** ** Shutdown of a started session *)

Lemma step_loop_ready (c : Command) (m : Machine) :
  loop_ready m = true -> loop_ready (fst (step c m)) = true.
Proof.
  intros H.
  destruct m as [[[a p l w s src flt sink i]|] th hj].
  2:{ now rewrite step_without_session by reflexivity. }
  unfold loop_ready in *.
  destruct c; open_step; split_tests; cbn in *; auto.
Qed.

Lemma step_thread_alive (c : Command) (m : Machine) :
  thread_alive m = true ->
  thread_alive (fst (step c m)) = true
  /\ List.existsb is_invalid_join (snd (step c m)) = false.
Proof.
  intros H.
  destruct m as [[[a p l w s src flt sink i]|] th hj].
  2:{ now rewrite step_without_session by reflexivity. }
  unfold thread_alive in *.
  destruct c; open_step; split_tests; cbn in *; auto; discriminate.
Qed.

(** X10.  Take a session started with its thread created, and any run of
    it.  If the run leaves the worker in its main loop and the host free,
    a [nativeFinalize] then runs to its end: the host comes back from
    [pthread_join], the field is null, the thread is joined, the NULL
    state has been requested on the way, and no call that can fault is
    made. *)
Theorem finalize_completes_once_looping :
  forall (cs : list Command) (global_ref : option jobject),
    let m := fst (run cs (started global_ref true)) in
    gst_app_thread m = T_looping ->
    host_joining m = false ->
    let r := step nativeFinalize m in
    host_joining (fst r) = false
    /\ native_custom_data (fst r) = None
    /\ gst_app_thread (fst r) = T_joined
    /\ List.existsb is_null_request (snd r) = true
    /\ List.existsb faulting (snd r) = false.
Proof.
  intros cs global_ref m Hth Hhj r.
  assert (Hinv : loop_ready m = true
                 /\ (native_custom_data m = None ->
                     gst_app_thread m <> T_looping)).
  { destruct (run_keeps any_command
                (fun m => loop_ready m = true
                          /\ (native_custom_data m = None ->
                              gst_app_thread m <> T_looping))
                (fun _ => True)) with (cs := cs) (m := started global_ref true)
      as [H _]; auto.
    - intros c m' _ [Hready Hnone]. split; [|exact I].
      split; [now apply step_loop_ready |].
      destruct m' as [[[a p l w s src flt sink i]|] th hj].
      + clear. destruct c; open_step; split_tests; cbn; intros; congruence.
      + rewrite step_without_session by reflexivity. exact Hnone.
    - apply forallb_any_command.
    - split; [reflexivity | cbn; discriminate]. }
  destruct Hinv as [Hready Hnone].
  subst r. clearbody m.
  destruct m as [[[a p l w s src flt sink i]|] th hj];
    cbn in Hth, Hhj; subst th hj.
  - unfold loop_ready in Hready. cbn in Hready.
    destruct l; [|discriminate Hready]. repeat split.
  - exfalso. now apply Hnone.
Qed.

Lemma finalize_completes_once_looping_witness :
  let cs := [ nativeSurfaceInit 11%positive (Some 7%positive) false;
              thread_enter (mkMade (Some 3%positive) (Some 5%positive)
                              (Some 4%positive) (Some 1%positive) 2%positive)
                false;
              nativePlay ] in
  let m := fst (run cs (started (Some 9%positive) true)) in
  host_joining (fst (step nativeFinalize m)) = false
  /\ native_custom_data (fst (step nativeFinalize m)) = None.
Proof.
  intros cs m.
  destruct (finalize_completes_once_looping cs (Some 9%positive))
    as (H1 & H2 & _); [reflexivity | reflexivity |].
  split; assumption.
Defined.

(** X11.  Whether [pthread_join] is given a thread that exists depends on
    [pthread_create] alone.  Along every run of a session started with
    its thread created, no [pthread_join] is made on a thread that does
    not exist.  On a session started with [pthread_create] failing, which
    [gst_native_init] does not notice, [gst_native_finalize] still calls
    [pthread_join], on a thread that was never created, and then frees
    the session. *)
Theorem join_follows_thread_creation :
  forall (cs : list Command) (global_ref : option jobject),
    List.existsb is_invalid_join (snd (run cs (started global_ref true)))
      = false
    /\ (let r := gst_native_finalize (started global_ref false) in
        snd r = [ g_main_loop_quit None; pthread_join false;
                  DeleteGlobalRef global_ref; g_free; SetLongField true ]
        /\ List.existsb faulting (snd r) = true
        /\ native_custom_data (fst r) = None).
Proof.
  intros cs global_ref. split; [|repeat split].
  destruct (run_keeps any_command (fun m => thread_alive m = true)
              (fun t => List.existsb is_invalid_join t = false))
    with (cs := cs) (m := started global_ref true) as [_ H]; auto.
  - intros a b. apply existsb_app_false.
  - intros c m _ Hm. now apply step_thread_alive.
  - apply forallb_any_command.
Qed.

(** ** The global reference *)

Lemma step_deletes_with_session (c : Command) (m : Machine) :
  count is_delete_global_ref (snd (step c m))
  + List.length (List.filter (@not_null GstAhc)
                   [native_custom_data (fst (step c m))])
  = List.length (List.filter (@not_null GstAhc) [native_custom_data m]).
Proof.
  destruct m as [[[a p l w s src flt sink i]|] th hj].
  2:{ now rewrite step_without_session by reflexivity. }
  destruct c; open_step; split_tests; reflexivity.
Qed.

(** X12.  From [nativeInit] on, along every run: every notification of
    the host ([onError], [onStateChanged], "initialization complete") is
    called on the global reference that [gst_native_init] took, and that
    is the reference [DeleteGlobalRef] is given; the reference is deleted
    exactly once if the run ends with the session destroyed, and not at
    all if the session is still there. *)
Theorem notifications_on_global_ref :
  forall (cs : list Command) (global_ref : option jobject)
         (thread_created : bool),
    let r := run cs (started global_ref thread_created) in
    List.forallb (targets global_ref) (snd r) = true
    /\ count is_delete_global_ref (snd r)
       = (if not_null (native_custom_data (fst r)) then 0 else 1).
Proof.
  intros cs global_ref thread_created r. subst r. split.
  - destruct (run_keeps any_command (fun m => notifies global_ref m = true)
                (fun t => List.forallb (targets global_ref) t = true))
      with (cs := cs) (m := started global_ref thread_created) as [_ H]; auto.
    + intros a b. apply forallb_app_true.
    + intros c m _ Hm. now apply step_targets.
    + apply forallb_any_command.
    + cbn. now apply ptr_eqb_eq.
  - assert (H : forall cs m,
               count is_delete_global_ref (snd (run cs m))
               + List.length (List.filter (@not_null GstAhc)
                                [native_custom_data (fst (run cs m))])
               = List.length (List.filter (@not_null GstAhc)
                                [native_custom_data m])).
    { clear. induction cs as [|c cs IH]; intros m; cbn [run].
      - reflexivity.
      - rewrite fst_bind, snd_bind, count_app.
        pose proof (step_deletes_with_session c m).
        pose proof (IH (fst (step c m))). lia. }
    specialize (H cs (started global_ref thread_created)).
    destruct (native_custom_data (fst (run cs (started global_ref thread_created))));
      cbn in H |- *; lia.
Qed.

(** The reading does tell one object from another. *)
Example targets_tells :
  targets (Some 9%positive)
    (CallVoidMethod (Some 8%positive) on_gstreamer_initialized_method_id)
  = false.
Proof. reflexivity. Qed.

(** ** The JNI environment of a thread *)

Lemma get_jni_env_each_cached (answers : list (Z * option JNIEnv)) (env : JNIEnv) :
  get_jni_env_each answers (Some env)
  = (List.map (fun _ => Some env) answers, Some env, []).
Proof.
  induction answers as [|[rc e] rest IH]; cbn; [reflexivity |].
  now rewrite IH.
Qed.

Lemma map_constant {A B : Type} (b : B) (l : list A) :
  List.map (fun _ => b) l = List.repeat b (List.length l).
Proof. induction l; cbn; congruence. Qed.

Lemma get_jni_env_each_from_nothing (answers : list (Z * option JNIEnv)) :
  let '(results, slot, calls) := get_jni_env_each answers None in
  List.length (List.filter attached calls) = (if not_null slot then 1 else 0)
  /\ List.Forall (fun r => r = None \/ r = slot) results
  /\ List.length (List.filter is_attach calls)
     = List.length (List.filter (fun r => negb (not_null r)) results)
       + (if not_null slot then 1 else 0)
  /\ List.filter is_detach calls = []
  /\ (exists k, results = List.repeat None k
                          ++ List.repeat slot (List.length results - k)).
Proof.
  induction answers as [|[rc e] rest IH]; cbn.
  - repeat split. constructor. exists 0. reflexivity.
  - unfold attach_current_thread.
    destruct (rc <? 0)%Z eqn:Hrc.
    + (* the attach failed: nothing is cached, the next call tries again *)
      assert (Ha : (0 <=? rc)%Z = false).
      { apply Z.ltb_lt in Hrc. apply Z.leb_gt. exact Hrc. }
      destruct (get_jni_env_each rest None) as [[results slot] calls].
      destruct IH as (H1 & H2 & H3 & H4 & [k H5]). cbn. rewrite Ha.
      assert (H6 : exists k', None :: results
                     = List.repeat None k'
                       ++ List.repeat slot (List.length (None :: results) - k')).
      { exists (S k). cbn. f_equal. exact H5. }
      destruct e; cbn; repeat split; auto; lia.
    + assert (Ha : (0 <=? rc)%Z = true).
      { apply Z.ltb_ge in Hrc. now apply Z.leb_le. }
      destruct e as [env|].
      * rewrite get_jni_env_each_cached. cbn. rewrite Ha. cbn.
        repeat split.
        -- constructor; [now right |].
           clear. induction rest; cbn; constructor; auto.
        -- clear. induction rest; cbn; auto.
        -- exists 0. cbn. f_equal.
           now rewrite map_constant, List.repeat_length.
      * destruct (get_jni_env_each rest None) as [[results slot] calls].
        destruct IH as (H1 & H2 & H3 & H4 & [k H5]). cbn.
        repeat split; auto; try lia.
        exists (S k). cbn. f_equal. exact H5.
Qed.

(** X13.  A thread that calls [get_jni_env] any number of times, starting
    with nothing under its key, obtains an environment from
    [AttachCurrentThread] at most once: it attaches on every call until
    an attach yields an environment, and from then on every call returns
    that same environment without a call to the VM: the environments
    returned are [NULL] some number of times and then the cached one
    every time.  At the end the key holds an environment exactly when
    one was obtained. *)
Theorem get_jni_env_attaches_once :
  forall (answers : list (Z * option JNIEnv)),
    let '(results, slot, calls) := get_jni_env_each answers None in
    List.length (List.filter attached calls)
      = (if not_null slot then 1 else 0)
    /\ List.Forall (fun r => r = None \/ r = slot) results
    /\ List.length (List.filter is_attach calls)
       = List.length (List.filter (fun r => negb (not_null r)) results)
         + (if not_null slot then 1 else 0)
    /\ (exists k, results = List.repeat None k
                            ++ List.repeat slot (List.length results - k)).
Proof.
  intros answers.
  pose proof (get_jni_env_each_from_nothing answers) as H.
  destruct (get_jni_env_each answers None) as [[results slot] calls].
  destruct H as (H1 & H2 & H3 & _ & H5). auto.
Qed.

(** X14.  Attach and detach balance over the life of a thread: a thread
    that starts with nothing under its key and exits after any number of
    [get_jni_env] calls is detached once if it obtained an environment,
    and not at all if every attach failed or it never asked. *)
Theorem attach_detach_balanced :
  forall (answers : list (Z * option JNIEnv)),
    let '(_, slot, calls) := get_jni_env_each answers None in
    List.length (List.filter is_detach (calls ++ thread_exit slot))
    = List.length (List.filter attached calls).
Proof.
  intros answers.
  pose proof (get_jni_env_each_from_nothing answers) as H.
  destruct (get_jni_env_each answers None) as [[results slot] calls].
  destruct H as (H1 & _ & _ & H4 & _).
  rewrite List.filter_app, List.length_app, H4, H1.
  destruct slot; reflexivity.
Qed.

(** Three calls: the first attach fails, the second yields environment
    6, the third is served from the key; the thread is detached once. *)
Example get_jni_env_three_calls :
  get_jni_env_each [((-1)%Z, None); (0%Z, Some 6%positive);
                    (0%Z, Some 8%positive)] None
  = ([None; Some 6%positive; Some 6%positive], Some 6%positive,
     [ AttachCurrentThread (-1) None; pthread_setspecific None;
       AttachCurrentThread 0 (Some 6%positive);
       pthread_setspecific (Some 6%positive) ]).
Proof. reflexivity. Qed.

(** ** What the worker makes and gives back *)

Lemma step_built_from (e : Made) (c : Command) (m : Machine) :
  built_from e m -> built_from e (fst (step c m)).
Proof.
  intros [Hth Hd].
  destruct m as [[[a p l w s src flt sink i]|] th hj].
  2:{ rewrite step_without_session by reflexivity. split; assumption. }
  cbn in Hth.
  assert (Hl : th = T_looping ->
               src = made_ahcsrc e /\ sink = made_vsink e
               /\ flt = made_filter e /\ p = made_pipeline e
               /\ l = Some (made_loop e)).
  { intros E. exact (Hd _ eq_refl E). }
  clear Hd. unfold built_from.
  destruct c; open_step; split_tests; cbn;
    (split; [congruence |]); intros d' Hd' Hth';
    try discriminate; try congruence;
    injection Hd' as <-; cbn; auto.
Qed.

Lemma step_gone_not_looping (c : Command) (m : Machine) :
  (native_custom_data m = None -> gst_app_thread m <> T_looping) ->
  native_custom_data (fst (step c m)) = None ->
  gst_app_thread (fst (step c m)) <> T_looping.
Proof.
  intros Hm.
  destruct m as [[[a p l w s src flt sink i]|] th hj].
  - clear. destruct c; open_step; split_tests; cbn; intros; congruence.
  - rewrite step_without_session by reflexivity. exact Hm.
Qed.

Lemma step_no_new_context (c : Command) (m : Machine) :
  gst_app_thread m <> T_spawned ->
  gst_app_thread (fst (step c m)) <> T_spawned
  /\ count is_context_new (snd (step c m)) = 0.
Proof.
  intros Hth.
  destruct m as [[[a p l w s src flt sink i]|] th hj].
  2:{ now rewrite step_without_session by reflexivity. }
  cbn in Hth.
  destruct c; open_step; split_tests; cbn; split; congruence.
Qed.

(** X15.  What shutdown gives back.  Start a session, let the worker
    build its pipeline from the objects [e], and let anything happen
    afterwards.  If the worker is then in its loop and the host free,
    [nativeFinalize] gives back, in this order and each once: the main
    loop of [e], the main context, the sink, the filter, the source and
    the pipeline of [e], the global reference taken at init, and the
    session struct.  It gives back nothing else (not the native window).
    The main context it gives back is the only one the run created. *)
Theorem shutdown_unrefs_what_was_made :
  forall (e : Made) (raised : bool) (cs : list Command)
         (global_ref : option jobject),
    let whole_run := run (thread_enter e raised :: cs)
                       (started global_ref true) in
    let m := fst whole_run in
    gst_app_thread m = T_looping ->
    host_joining m = false ->
    let r := step nativeFinalize m in
    released (snd r)
      = [ rel_main_loop (Some (made_loop e)); rel_main_context;
          rel_object (made_vsink e); rel_object (made_filter e);
          rel_object (made_ahcsrc e); rel_object (made_pipeline e);
          rel_global_ref global_ref; rel_session ]
    /\ count is_context_new (snd whole_run) = 1.
Proof.
  intros e raised cs global_ref whole_run m Hth Hhj r.
  assert (Hinv : built_from e m).
  { subst m whole_run. cbn [run]. rewrite fst_bind.
    destruct (run_keeps any_command (built_from e) (fun _ => True))
      with (cs := cs)
           (m := fst (step (thread_enter e raised) (started global_ref true)))
      as [H _]; auto.
    - intros c m' _ Hm'. split; [now apply step_built_from | exact I].
    - apply forallb_any_command.
    - split; [cbn; discriminate |].
      intros d Hd _. cbn in Hd. injection Hd as <-. cbn. auto. }
  assert (Hgone : native_custom_data m = None ->
                  gst_app_thread m <> T_looping).
  { subst m whole_run.
    destruct (run_keeps any_command
                (fun m => native_custom_data m = None ->
                          gst_app_thread m <> T_looping)
                (fun _ => True))
      with (cs := thread_enter e raised :: cs)
           (m := started global_ref true) as [H _]; auto.
    - intros c m' _ Hm'. split; [now apply step_gone_not_looping | exact I].
    - apply forallb_any_command.
    - cbn. discriminate. }
  assert (Happ : notifies global_ref m = true).
  { subst m whole_run.
    destruct (run_keeps any_command (fun m => notifies global_ref m = true)
                (fun _ => True))
      with (cs := thread_enter e raised :: cs)
           (m := started global_ref true) as [H _]; auto.
    - intros c m' _ Hm'. split; [now apply step_targets | exact I].
    - apply forallb_any_command.
    - cbn. now apply ptr_eqb_eq. }
  assert (Hctx : count is_context_new (snd whole_run) = 1).
  { subst whole_run. cbn [run]. rewrite snd_bind, count_app.
    assert (Happ0 : forall a b : list Call,
               count is_context_new a = 0 -> count is_context_new b = 0 ->
               count is_context_new (a ++ b) = 0).
    { intros a b Ha Hb. rewrite count_app. lia. }
    assert (Hstep : forall c m', any_command c = true ->
               gst_app_thread m' <> T_spawned ->
               gst_app_thread (fst (step c m')) <> T_spawned
               /\ count is_context_new (snd (step c m')) = 0).
    { intros c m' _ Hm'. now apply step_no_new_context. }
    assert (Hfirst : gst_app_thread
                       (fst (step (thread_enter e raised)
                               (started global_ref true))) <> T_spawned).
    { cbn. discriminate. }
    destruct (run_keeps any_command (fun m => gst_app_thread m <> T_spawned)
                (fun t => count is_context_new t = 0)
                eq_refl Happ0 Hstep cs _ (forallb_any_command cs) Hfirst)
      as [_ H].
    rewrite H. destruct raised; reflexivity. }
  split; [|exact Hctx].
  subst r. clearbody m.
  destruct m as [[[a p l w s src flt sink i]|] th hj];
    cbn in Hth, Hhj; subst th hj.
  - destruct Hinv as [_ Hd].
    destruct (Hd _ eq_refl eq_refl) as (E1 & E2 & E3 & E4 & E5).
    cbn in E1, E2, E3, E4, E5. subst src sink flt p l.
    cbn in Happ. apply ptr_eqb_eq in Happ. subst a.
    reflexivity.
  - exfalso. now apply Hgone.
Qed.

Lemma shutdown_unrefs_what_was_made_witness :
  let e := mkMade (Some 3%positive) (Some 5%positive) (Some 4%positive)
             (Some 1%positive) 2%positive in
  let m := fst (run [ thread_enter e false;
                      nativeSurfaceInit 11%positive (Some 7%positive) false;
                      message_eos ]
                  (started (Some 9%positive) true)) in
  released (snd (step nativeFinalize m))
  = [ rel_main_loop (Some 2%positive); rel_main_context;
      rel_object (Some 5%positive); rel_object (Some 4%positive);
      rel_object (Some 3%positive); rel_object (Some 1%positive);
      rel_global_ref (Some 9%positive); rel_session ].
Proof.
  intros e m.
  destruct (shutdown_unrefs_what_was_made e false
              [ nativeSurfaceInit 11%positive (Some 7%positive) false;
                message_eos ]
              (Some 9%positive)) as [H _];
    [reflexivity | reflexivity |].
  exact H.
Defined.

(** ** Readiness checks that overlap *)

(** The parts put together again are the functions they were cut from. *)
Lemma parts_make_whole :
  (forall raised d,
     check_initialization_complete raised d
     = check_finish (check_test d) raised d)
  /\ (forall surface window raised m,
        let r := schedule [surface_store surface window; host_test;
                           host_finish raised] (at_rest m) in
        fst r = at_rest (fst (step (nativeSurfaceInit surface window raised) m))
        /\ snd r = snd (step (nativeSurfaceInit surface window raised) m))
  /\ (forall e raised m,
        let r := schedule [worker_build e; worker_test;
                           worker_finish raised; worker_run] (at_rest m) in
        machine (fst r) = fst (step (thread_enter e raised) m)
        /\ snd r = snd (step (thread_enter e raised) m)).
Proof.
  split; [|split].
  - intros raised d. unfold check_initialization_complete, check_finish,
      check_test.
    destruct (negb (initialized d) && not_null (native_window d)
              && not_null (main_loop d)); reflexivity.
  - intros surface window raised m r. subst r.
    destruct m as [[[a p l w s src flt sink i]|] th hj].
    + destruct hj, w, window, sink, i, l, raised; split; reflexivity.
    + destruct hj; split; reflexivity.
  - intros e raised m r. subst r.
    destruct m as [[[a p l w s src flt sink i]|] th hj].
    + destruct e as [esrc esink eflt epipe eloop].
      destruct th, w, i, raised; split; reflexivity.
    + destruct th; split; reflexivity.
Qed.





(** A run of whole commands is a schedule whose checks are apart. *)
Lemma runs_are_apart (cs : list Command) (m : Machine) :
  apart (List.map whole cs) nobody = true
  /\ machine (fst (schedule (List.map whole cs) (at_rest m))) = fst (run cs m)
  /\ snd (schedule (List.map whole cs) (at_rest m)) = snd (run cs m).
Proof.
  split.
  - induction cs as [|c cs IH]; cbn; auto.
  - assert (H : forall c m, part (whole c) (at_rest m)
                            = (at_rest (fst (step c m)), snd (step c m))).
    { clear. intros c m.
      destruct c; unfold part, at_rest, bind, ret;
        cbn [is_worker_command machine host_at worker_at fst snd];
        now rewrite List.app_nil_r. }
    revert m. induction cs as [|c cs IH]; intros m; cbn [List.map schedule run].
    + split; reflexivity.
    + rewrite fst_bind, !snd_bind, H. cbn [fst snd].
      destruct (IH (fst (step c m))) as [IH1 IH2].
      rewrite fst_bind. split; [exact IH1 | now rewrite IH2].
Qed.



